(** * node-amqp10: the Session layer (lib/session.js)

    A shallow embedding of [Session] and of the properties its
    specification states about it.

    Conventions of the embedding.
    - JavaScript numbers that the session only counts with (ids, windows,
      handles, channels) are integers [Z]; no wrap-around is involved.
    - A field that may hold no number ([undefined], or [NaN] once
      arithmetic has touched an undefined field) is an [option Z], [None]
      standing for "not a number".  A frame field on which the code tells
      [undefined] from [null] is a [Nullable].
    - Objects used as dictionaries are finite maps ([gmap]) holding their
      own properties.  Where the key is a name read from a frame, the
      lookup also answers for the properties a plain object inherits
      from [Object.prototype].  Link names are taken to be other than
      [__proto__], which as a key of an assignment would replace the
      prototype of the dictionary instead of adding an entry.
    - Calls that leave the session (to the connection, to a link, to the
      event emitter, to [console.warn]) are recorded, in order, in the
      [trace] of the session.  [debug(...)] output is not recorded.
    - A [throw] is an [Outcome] that carries the state at the point of the
      throw: the fields already assigned stay assigned. *)

From Stdlib Require Import ZArith List Lia.
From stdpp Require Import base decidable countable gmap strings list fin_maps.

Local Open Scope Z_scope.

(** ** JavaScript values *)

(** A value that is [undefined], [null] or present. *)
Inductive Nullable (A : Type) : Type :=
  | undefined
  | null
  | val (a : A).
Arguments undefined {A}.
Arguments null {A}.
Arguments val {A} a.

#[global] Instance Nullable_eq_dec {A} `{EqDecision A} : EqDecision (Nullable A).
Proof. solve_decision. Defined.

#[global] Instance Nullable_countable {A} `{Countable A} : Countable (Nullable A).
Proof.
  refine (inj_countable'
    (fun x => match x with
              | undefined => inl false
              | null => inl true
              | val a => inr a
              end)
    (fun y => match y with
              | inl false => undefined
              | inl true => null
              | inr a => val a
              end) _).
  intros x. destruct x; reflexivity.
Defined.

(** [x || d] on a number: [undefined], [null] and [0] are falsy. *)
Definition or_else (x : Nullable Z) (d : Z) : Z :=
  match x with
  | val z => if Z.eqb z 0 then d else z
  | _ => d
  end.

(** The property names every plain object inherits from
    [Object.prototype]: reading one of them from a dictionary that has no
    entry of its own under that name gives a function (or, for
    [__proto__], the prototype), not [undefined]. *)
Definition Object_prototype : list string :=
  ["constructor"; "toString"; "toLocaleString"; "valueOf"; "hasOwnProperty";
   "isPrototypeOf"; "propertyIsEnumerable"; "__proto__"; "__defineGetter__";
   "__defineSetter__"; "__lookupGetter__"; "__lookupSetter__"]%string.

Definition inherited (n : string) : bool := bool_decide (n ∈ Object_prototype).

(** Arithmetic on fields that may hold no number. *)
Definition js_dec (x : option Z) : option Z := option_map Z.pred x.

(** [x < 0]; a comparison with [NaN] is false. *)
Definition js_neg (x : option Z) : bool :=
  match x with
  | Some z => Z.ltb z 0
  | None => false
  end.

(** [a + b - c] where [a] may hold no number. *)
Definition js_add_sub (a : option Z) (b c : Z) : option Z :=
  option_map (fun z => z + b - c) a.

(** ** The session state machine (the table given to stately.js) *)

(** The keys of the table; BEGIN-RCVD of the AMQP diagram is not one of
    them, the session always sends its Begin first. *)
Inductive State : Type :=
  | UNMAPPED
  | BEGIN_SENT
  | MAPPED
  | END_SENT
  | DISCARDING
  | END_RCVD.

Inductive Event : Type :=
  | sendBegin
  | beginReceived
  | sendEnd
  | endReceived.

#[global] Instance State_eq_dec : EqDecision State.
Proof. solve_decision. Defined.

#[global] Instance Event_eq_dec : EqDecision Event.
Proof. solve_decision. Defined.

(** The object literal [stateMachine] of the constructor: the events each
    state defines, and the state each one returns. *)
Definition stateMachine (st : State) (ev : Event) : option State :=
  match st, ev with
  | UNMAPPED, sendBegin => Some BEGIN_SENT
  | BEGIN_SENT, beginReceived => Some MAPPED
  | MAPPED, sendEnd => Some END_SENT
  | MAPPED, endReceived => Some END_RCVD
  | END_SENT, endReceived => Some UNMAPPED
  | DISCARDING, endReceived => Some UNMAPPED
  | END_RCVD, sendEnd => Some UNMAPPED
  | _, _ => None
  end.

(** ** Links and link policies (lib/link.js, at its interface) *)

Inductive Role : Type :=
  | sender
  | receiver.

#[global] Instance Role_eq_dec : EqDecision Role.
Proof. solve_decision. Defined.

(** [policy.options.name] is a string or a function producing one. *)
Inductive LinkName : Type :=
  | NameString (n : string)
  | NameFunction (f : unit -> string).

Module LinkPolicy.
Record t : Type := mk {
  name : LinkName;
  role : Role
}.
End LinkPolicy.

(** Modelled from the spec: the Link class (lib/link.js).  A link is
    constructed from the session, its handle and its policy, and "exposes
    its role (sender/receiver) and name". *)
Module Link.
Record t : Type := mk {
  handle : Z;
  name : string;
  role : Role
}.
End Link.

(** What [_allocatedHandles] holds under a handle: [true] while
    [_nextHandle] has reserved it, then the link itself. *)
Inductive Slot : Type :=
  | Reserved
  | Attached (l : Link.t).

(** ** Frames, as the session reads them *)

Module BeginFrame.
Record t : Type := mk {
  remoteChannel : option Z;
  nextOutgoingId : Z;
  incomingWindow : Z;
  outgoingWindow : Z;
  handleMax : Nullable Z
}.
End BeginFrame.

Module EndFrame.
Record t {Value : Type} : Type := mk {
  error : option Value
}.
Arguments t : clear implicits.
Arguments mk {Value} error.
End EndFrame.

Module AttachFrame.
Record t : Type := mk {
  name : option string;
  handle : Nullable Z
}.
End AttachFrame.

Module DetachFrame.
Record t : Type := mk {
  handle : Nullable Z
}.
End DetachFrame.

Module FlowFrame.
Record t : Type := mk {
  nextIncomingId : Nullable Z;
  incomingWindow : Z;
  nextOutgoingId : Z;
  outgoingWindow : Z;
  handle : Nullable Z
}.
End FlowFrame.

Module TransferFrame.
Record t : Type := mk {
  handle : Nullable Z;
  deliveryId : Nullable Z
}.
End TransferFrame.

Module DispositionFrame.
Record t {Value : Type} : Type := mk {
  role : Role;
  first : Z;
  last : Nullable Z;
  settled : bool;
  state : Value
}.
Arguments t : clear implicits.
Arguments mk {Value} role first last settled state.
End DispositionFrame.

(** [frame instanceof ...]: the kind of a frame and its fields. *)
Inductive FrameBody (Value : Type) : Type :=
  | Begin (f : BeginFrame.t)
  | End_ (f : EndFrame.t Value)
  | Attach (f : AttachFrame.t)
  | Detach (f : DetachFrame.t)
  | Flow (f : FlowFrame.t)
  | Transfer (f : TransferFrame.t)
  | Disposition (f : DispositionFrame.t Value)
  | OtherFrame.
Arguments Begin {Value} f.
Arguments End_ {Value} f.
Arguments Attach {Value} f.
Arguments Detach {Value} f.
Arguments Flow {Value} f.
Arguments Transfer {Value} f.
Arguments Disposition {Value} f.
Arguments OtherFrame {Value}.

Module Frame.
Record t {Value : Type} : Type := mk {
  channel : option Z;
  body : FrameBody Value
}.
Arguments t : clear implicits.
Arguments mk {Value} channel body.
End Frame.

(** ** Session parameters and policy *)

Module SessionParams.
Record t : Type := mk {
  nextOutgoingId : Z;
  incomingWindow : Z;
  outgoingWindow : Z;
  nextIncomingId : option Z;
  remoteIncomingWindow : option Z;
  remoteOutgoingWindow : option Z;
  handleMax : option Z
}.

Definition set_nextOutgoingId (v : Z) (p : t) : t :=
  mk v (incomingWindow p) (outgoingWindow p) (nextIncomingId p)
     (remoteIncomingWindow p) (remoteOutgoingWindow p) (handleMax p).
Definition set_incomingWindow (v : Z) (p : t) : t :=
  mk (nextOutgoingId p) v (outgoingWindow p) (nextIncomingId p)
     (remoteIncomingWindow p) (remoteOutgoingWindow p) (handleMax p).
Definition set_outgoingWindow (v : Z) (p : t) : t :=
  mk (nextOutgoingId p) (incomingWindow p) v (nextIncomingId p)
     (remoteIncomingWindow p) (remoteOutgoingWindow p) (handleMax p).
Definition set_nextIncomingId (v : option Z) (p : t) : t :=
  mk (nextOutgoingId p) (incomingWindow p) (outgoingWindow p) v
     (remoteIncomingWindow p) (remoteOutgoingWindow p) (handleMax p).
Definition set_remoteIncomingWindow (v : option Z) (p : t) : t :=
  mk (nextOutgoingId p) (incomingWindow p) (outgoingWindow p)
     (nextIncomingId p) v (remoteOutgoingWindow p) (handleMax p).
Definition set_remoteOutgoingWindow (v : option Z) (p : t) : t :=
  mk (nextOutgoingId p) (incomingWindow p) (outgoingWindow p)
     (nextIncomingId p) (remoteIncomingWindow p) v (handleMax p).
Definition set_handleMax (v : option Z) (p : t) : t :=
  mk (nextOutgoingId p) (incomingWindow p) (outgoingWindow p)
     (nextIncomingId p) (remoteIncomingWindow p) (remoteOutgoingWindow p) v.
End SessionParams.

Module SessionPolicy.
Record t : Type := mk {
  options : SessionParams.t;
  enableSessionFlowControl : bool
}.
End SessionPolicy.

(** The options [addWindow] passes to [new FlowFrame(opts)]. *)
Module FlowOptions.
Record t : Type := mk {
  nextIncomingId : option Z;
  incomingWindow : Z;
  nextOutgoingId : Z;
  outgoingWindow : Z;
  handle : Nullable Z;
  available : Nullable Z;
  deliveryCount : Nullable Z;
  drain : bool
}.
End FlowOptions.

(** ** The session *)

Section SessionLayer.

(** Values the session carries without looking inside: message bodies,
    send options, delivery states, the AMQP error of an End frame. *)
Context {Value : Type}.

(** [constants.defaultHandleMax] (lib/constants.js). *)
Variable defaultHandleMax : Z.

(** stately.js, on an event that the current state does not define: the
    call returns, and the machine is left in the state given here. *)
Variable unhandled : State -> Event -> State.

(** An entry of [_transfersInFlight]. *)
Record InFlight : Type := mkInFlight {
  message : Value;
  options : Value;
  sent : Z
}.

(** Frames the session builds and hands to [connection.sendFrame]. *)
Inductive OutFrame : Type :=
  | OutBegin (params : SessionParams.t)
  | OutEnd
  | OutFlow (opts : FlowOptions.t).

(** Methods of a link the session calls. *)
Inductive LinkMethod : Type :=
  | link_attach
  | link_detach
  | link_sendMessage (deliveryId : Z) (msg opts : Value)
  | link_attachReceived (f : AttachFrame.t)
  | link_detachReceived (f : DetachFrame.t)
  | link_flowReceived (f : FlowFrame.t)
  | link_messageReceived (f : TransferFrame.t).

(** The events of the session ([Session.Mapped], ...) with their
    arguments. *)
Inductive Notification : Type :=
  | Mapped
  | Unmapped
  | ErrorReceived (e : Value)
  | LinkAttached (l : Link.t)
  | LinkDetached (l : Link.t)
  | DispositionReceived (first last : Z) (settled : bool) (state : Value).

Inductive Warning : Type :=
  | EndBeforeMapped (ch : option Z)
  | UnknownAttach (name : option string)
  | UnknownDetach (handle : Nullable Z)
  | UnknownFlow (handle : Nullable Z)
  | UnknownTransfer (handle : Nullable Z).

Inductive Effect : Type :=
  | associateSession (ch : Z)
  | dissociateSession (ch : Z)
  | on_FrameReceived
  | removeListener_FrameReceived
  | sendFrame (ch : option Z) (f : OutFrame)
  | emit (n : Notification)
  | console_warn (w : Warning)
  | link_call (l : Link.t) (m : LinkMethod).

Record Session : Type := mkSession {
  mapped : bool;
  channel : option Z;
  remoteChannel : option Z;
  _allocatedHandles : gmap Z Slot;
  _linksByName : gmap string Link.t;
  _linksByRemoteHandle : gmap (Nullable Z) Link.t;
  _senderLinks : list Link.t;
  _transfersInFlight : gmap Z InFlight;
  sessionSM : State;
  policy : option SessionPolicy.t;
  _sessionParams : option SessionParams.t;
  _initialOutgoingId : option Z;
  trace : list Effect
}.

Inductive Exn : Type :=
  | TypeError
  | OverCapacityError.

Inductive Outcome (A : Type) : Type :=
  | Return (a : A) (s : Session)
  | Throw (e : Exn) (s : Session).
Arguments Return {A} a s.
Arguments Throw {A} e s.

Definition state_of {A} (o : Outcome A) : Session :=
  match o with
  | Return _ s => s
  | Throw _ s => s
  end.

Definition bind {A B} (m : Outcome A) (k : A -> Session -> Outcome B) : Outcome B :=
  match m with
  | Return a s => k a s
  | Throw e s => Throw e s
  end.

(** Assignments to one field. *)
Definition set_mapped (v : bool) (s : Session) : Session :=
  mkSession v (channel s) (remoteChannel s) (_allocatedHandles s) (_linksByName s)
    (_linksByRemoteHandle s) (_senderLinks s) (_transfersInFlight s) (sessionSM s)
    (policy s) (_sessionParams s) (_initialOutgoingId s) (trace s).
Definition set_channel (v : option Z) (s : Session) : Session :=
  mkSession (mapped s) v (remoteChannel s) (_allocatedHandles s) (_linksByName s)
    (_linksByRemoteHandle s) (_senderLinks s) (_transfersInFlight s) (sessionSM s)
    (policy s) (_sessionParams s) (_initialOutgoingId s) (trace s).
Definition set_remoteChannel (v : option Z) (s : Session) : Session :=
  mkSession (mapped s) (channel s) v (_allocatedHandles s) (_linksByName s)
    (_linksByRemoteHandle s) (_senderLinks s) (_transfersInFlight s) (sessionSM s)
    (policy s) (_sessionParams s) (_initialOutgoingId s) (trace s).
Definition set_allocatedHandles (v : gmap Z Slot) (s : Session) : Session :=
  mkSession (mapped s) (channel s) (remoteChannel s) v (_linksByName s)
    (_linksByRemoteHandle s) (_senderLinks s) (_transfersInFlight s) (sessionSM s)
    (policy s) (_sessionParams s) (_initialOutgoingId s) (trace s).
Definition set_linksByName (v : gmap string Link.t) (s : Session) : Session :=
  mkSession (mapped s) (channel s) (remoteChannel s) (_allocatedHandles s) v
    (_linksByRemoteHandle s) (_senderLinks s) (_transfersInFlight s) (sessionSM s)
    (policy s) (_sessionParams s) (_initialOutgoingId s) (trace s).
Definition set_senderLinks (v : list Link.t) (s : Session) : Session :=
  mkSession (mapped s) (channel s) (remoteChannel s) (_allocatedHandles s) (_linksByName s)
    (_linksByRemoteHandle s) v (_transfersInFlight s) (sessionSM s)
    (policy s) (_sessionParams s) (_initialOutgoingId s) (trace s).
Definition set_transfersInFlight (v : gmap Z InFlight) (s : Session) : Session :=
  mkSession (mapped s) (channel s) (remoteChannel s) (_allocatedHandles s) (_linksByName s)
    (_linksByRemoteHandle s) (_senderLinks s) v (sessionSM s)
    (policy s) (_sessionParams s) (_initialOutgoingId s) (trace s).
Definition set_sessionSM (v : State) (s : Session) : Session :=
  mkSession (mapped s) (channel s) (remoteChannel s) (_allocatedHandles s) (_linksByName s)
    (_linksByRemoteHandle s) (_senderLinks s) (_transfersInFlight s) v
    (policy s) (_sessionParams s) (_initialOutgoingId s) (trace s).
Definition set_policy (v : option SessionPolicy.t) (s : Session) : Session :=
  mkSession (mapped s) (channel s) (remoteChannel s) (_allocatedHandles s) (_linksByName s)
    (_linksByRemoteHandle s) (_senderLinks s) (_transfersInFlight s) (sessionSM s)
    v (_sessionParams s) (_initialOutgoingId s) (trace s).
Definition set_sessionParams (v : option SessionParams.t) (s : Session) : Session :=
  mkSession (mapped s) (channel s) (remoteChannel s) (_allocatedHandles s) (_linksByName s)
    (_linksByRemoteHandle s) (_senderLinks s) (_transfersInFlight s) (sessionSM s)
    (policy s) v (_initialOutgoingId s) (trace s).
Definition set_initialOutgoingId (v : option Z) (s : Session) : Session :=
  mkSession (mapped s) (channel s) (remoteChannel s) (_allocatedHandles s) (_linksByName s)
    (_linksByRemoteHandle s) (_senderLinks s) (_transfersInFlight s) (sessionSM s)
    (policy s) (_sessionParams s) v (trace s).
Definition set_trace (v : list Effect) (s : Session) : Session :=
  mkSession (mapped s) (channel s) (remoteChannel s) (_allocatedHandles s) (_linksByName s)
    (_linksByRemoteHandle s) (_senderLinks s) (_transfersInFlight s) (sessionSM s)
    (policy s) (_sessionParams s) (_initialOutgoingId s) v.

(** One more call out of the session. *)
Definition log (e : Effect) (s : Session) : Session :=
  set_trace (trace s ++ [e]) s.

(** [this.sessionSM.<event>()]. *)
Definition transition (st : State) (ev : Event) : State :=
  match stateMachine st ev with
  | Some st' => st'
  | None => unhandled st ev
  end.

Definition fire (ev : Event) (s : Session) : Session :=
  set_sessionSM (transition (sessionSM s) ev) s.

(** [new Session(conn)]. *)
Definition new_Session : Session :=
  mkSession false None None ∅ ∅ ∅ [] ∅ UNMAPPED None None None [].

(** [Session.prototype.begin]; [ch] is what
    [connection.associateSession(this)] returns. *)
Definition begin (s : Session) (sessionPolicy : SessionPolicy.t) (ch : Z) : Session :=
  let sessionParams := SessionPolicy.options sessionPolicy in
  let s := set_policy (Some sessionPolicy) s in
  let s := set_channel (Some ch) (log (associateSession ch) s) in
  let s := set_sessionParams (Some sessionParams) s in
  let s := set_initialOutgoingId (Some (SessionParams.nextOutgoingId sessionParams)) s in
  let s := fire sendBegin s in
  let s := log on_FrameReceived s in
  log (sendFrame (channel s) (OutBegin sessionParams)) s.

(** [Session.prototype._nextHandle]: the loop, [n] iterations left. *)
Fixpoint _nextHandle_loop (handles : gmap Z Slot) (n : nat) (hid : Z) : option Z :=
  match n with
  | O => None
  | S n' =>
      match handles !! hid with
      | None => Some hid
      | Some _ => _nextHandle_loop handles n' (hid + 1)
      end
  end.

Definition _nextHandle (s : Session) : Outcome Z :=
  match _sessionParams s with
  | None => Throw TypeError s
  | Some p =>
      match SessionParams.handleMax p with
      | None => Throw OverCapacityError s
      | Some hmax =>
          match _nextHandle_loop (_allocatedHandles s) (Z.to_nat (hmax + 1)) 0 with
          | Some hid =>
              Return hid (set_allocatedHandles (<[hid := Reserved]> (_allocatedHandles s)) s)
          | None => Throw OverCapacityError s
          end
      end
  end.

Definition resolve_name (n : LinkName) : string :=
  match n with
  | NameString str => str
  | NameFunction f => f tt
  end.

(** [Session.prototype.attachLink]. *)
Definition attachLink (s : Session) (linkPolicy : LinkPolicy.t) : Outcome Link.t :=
  let name := resolve_name (LinkPolicy.name linkPolicy) in
  bind (_nextHandle s) (fun handle s =>
    let newLink := Link.mk handle name (LinkPolicy.role linkPolicy) in
    let s := set_allocatedHandles (<[handle := Attached newLink]> (_allocatedHandles s)) s in
    let s := set_linksByName (<[name := newLink]> (_linksByName s)) s in
    let s := log (link_call newLink link_attach) s in
    let s := match Link.role newLink with
             | sender => set_senderLinks (_senderLinks s ++ [newLink]) s
             | receiver => s
             end in
    Return newLink s).

Definition _linkAttached (s : Session) (link : Link.t) : Session :=
  log (emit (LinkAttached link)) s.

Definition _linkDetached (s : Session) (link : Link.t) : Session :=
  log (emit (LinkDetached link)) s.

(** [Session.prototype.sendMessage]; [now] is what [Date.now()] returns. *)
Definition sendMessage (s : Session) (link : Link.t) (msg opts : Value) (now : Z)
  : Outcome unit :=
  match _sessionParams s with
  | None => Throw TypeError s
  | Some p =>
      let messageId := SessionParams.nextOutgoingId p in
      let p := SessionParams.set_nextOutgoingId (messageId + 1) p in
      let p := SessionParams.set_remoteIncomingWindow
                 (js_dec (SessionParams.remoteIncomingWindow p)) p in
      let p := SessionParams.set_outgoingWindow (SessionParams.outgoingWindow p - 1) p in
      let s := set_sessionParams (Some p) s in
      let proceed (s : Session) :=
        let s := set_transfersInFlight
                   (<[messageId := mkInFlight msg opts now]> (_transfersInFlight s)) s in
        Return tt (log (link_call link (link_sendMessage messageId msg opts)) s) in
      if js_neg (SessionParams.remoteIncomingWindow p) then
        match policy s with
        | None => Throw TypeError s
        | Some pol =>
            if SessionPolicy.enableSessionFlowControl pol then Throw OverCapacityError s
            else
              let p := SessionParams.set_outgoingWindow 0 p in
              let p := SessionParams.set_remoteIncomingWindow (Some 0) p in
              proceed (set_sessionParams (Some p) s)
        end
      else proceed s
  end.

(** [Session.prototype.addWindow].  Every field of [flowOptions] that the
    Flow frame reads is overwritten here, so the argument is left out. *)
Definition addWindow (s : Session) (windowSize : Z) : Outcome unit :=
  match _sessionParams s with
  | None => Throw TypeError s
  | Some p =>
      let p := SessionParams.set_incomingWindow (SessionParams.incomingWindow p + windowSize) p in
      let s := set_sessionParams (Some p) s in
      let opts := FlowOptions.mk (SessionParams.nextIncomingId p)
                    (SessionParams.incomingWindow p)
                    (SessionParams.nextOutgoingId p)
                    (SessionParams.outgoingWindow p)
                    null null null false in
      Return tt (log (sendFrame (channel s) (OutFlow opts)) s)
  end.

(** [Session.prototype.detachLink]. *)
Definition detachLink (s : Session) (link : Link.t) : Session :=
  log (link_call link link_detach) s.

(** [Session.prototype._sendEnd]. *)
Definition _sendEnd (s : Session) : Session :=
  log (sendFrame (channel s) OutEnd) s.

(** [Session.prototype._unmap]; the connection given to the constructor
    is defined. *)
Definition _unmap (s : Session) : Session :=
  match channel s with
  | Some ch =>
      let s := log removeListener_FrameReceived s in
      let s := log (dissociateSession ch) s in
      let s := set_remoteChannel None s in
      let s := set_channel None s in
      let s := set_mapped false s in
      log (emit Unmapped) s
  | None => s
  end.

(** [Session.prototype.end]. *)
Definition end_ (s : Session) : Session :=
  match remoteChannel s with
  | Some _ =>
      let s := fire sendEnd s in
      let s := _sendEnd s in
      if decide (sessionSM s = UNMAPPED) then _unmap s else s
  | None =>
      let s := log (console_warn (EndBeforeMapped (channel s))) s in
      _unmap s
  end.

(** [Session.prototype._beginReceived]. *)
Definition _beginReceived (s : Session) (ch : option Z) (frame : BeginFrame.t)
  : Outcome unit :=
  let s := set_remoteChannel ch s in
  match _sessionParams s with
  | None => Throw TypeError s
  | Some p =>
      let p := SessionParams.set_nextIncomingId (Some (BeginFrame.nextOutgoingId frame)) p in
      let p := SessionParams.set_remoteIncomingWindow
                 (Some (BeginFrame.incomingWindow frame)) p in
      let p := SessionParams.set_remoteOutgoingWindow
                 (Some (BeginFrame.outgoingWindow frame)) p in
      let theirs := or_else (BeginFrame.handleMax frame) defaultHandleMax in
      let hmax := match SessionParams.handleMax p with
                  | Some ours => if Z.eqb ours 0 then theirs else Z.min ours theirs
                  | None => theirs
                  end in
      let p := SessionParams.set_handleMax (Some hmax) p in
      let s := set_sessionParams (Some p) s in
      let s := set_mapped true s in
      Return tt (log (emit Mapped) s)
  end.

(** [Session.prototype._flowReceived]. *)
Definition _flowReceived (s : Session) (frame : FlowFrame.t) : Outcome unit :=
  match _sessionParams s with
  | None => Throw TypeError s
  | Some p =>
      let p := SessionParams.set_nextIncomingId (Some (FlowFrame.nextOutgoingId frame)) p in
      let p := SessionParams.set_remoteOutgoingWindow
                 (Some (FlowFrame.outgoingWindow frame)) p in
      let p :=
        match FlowFrame.nextIncomingId frame with
        | undefined | null =>
            SessionParams.set_remoteIncomingWindow
              (js_add_sub (_initialOutgoingId s) (FlowFrame.incomingWindow frame)
                 (SessionParams.nextOutgoingId p)) p
        | val nextIncomingId =>
            SessionParams.set_remoteIncomingWindow
              (Some (nextIncomingId + FlowFrame.incomingWindow frame
                     - SessionParams.nextOutgoingId p)) p
        end in
      Return tt (set_sessionParams (Some p) s)
  end.

(** [Session.prototype._transferReceived]. *)
Definition _transferReceived (s : Session) (frame : TransferFrame.t) : Outcome unit :=
  match _sessionParams s with
  | None => Throw TypeError s
  | Some p =>
      let p := SessionParams.set_incomingWindow (SessionParams.incomingWindow p - 1) p in
      let p := SessionParams.set_remoteOutgoingWindow
                 (js_dec (SessionParams.remoteOutgoingWindow p)) p in
      let p := match TransferFrame.deliveryId frame with
               | val deliveryId => SessionParams.set_nextIncomingId (Some (deliveryId + 1)) p
               | undefined | null => p
               end in
      Return tt (set_sessionParams (Some p) s)
  end.

(** [Session.prototype._endReceived]. *)
Definition _endReceived (s : Session) (frame : EndFrame.t Value) : Session :=
  match EndFrame.error frame with
  | Some e => log (emit (ErrorReceived e)) s
  | None => s
  end.

(** The settlement loop of the Disposition branch, [n] iterations left. *)
Fixpoint settle_loop (inFlight : gmap Z InFlight) (n : nat) (messageId : Z)
  : gmap Z InFlight :=
  match n with
  | O => inFlight
  | S n' =>
      match inFlight !! messageId with
      | Some _ => settle_loop (delete messageId inFlight) n' (messageId + 1)
      | None => settle_loop inFlight n' (messageId + 1)
      end
  end.

(** [frame.name && ...]: an absent or empty name is falsy. *)
Definition truthy_name (n : option string) : option string :=
  match n with
  | Some EmptyString => None
  | other => other
  end.

(** [frame instanceof BeginFrame && frame.remoteChannel === this.channel]. *)
Definition begin_for_us (s : Session) (frame : Frame.t Value) : option BeginFrame.t :=
  match Frame.body frame with
  | Begin b =>
      if decide (BeginFrame.remoteChannel b = channel s) then Some b else None
  | _ => None
  end.

(** [frame.channel === undefined || frame.channel !== this.remoteChannel]. *)
Definition invalid_channel (s : Session) (frame : Frame.t Value) : bool :=
  match Frame.channel frame with
  | None => true
  | Some ch => negb (bool_decide (Some ch = remoteChannel s))
  end.

(** [Session.prototype._processFrame]. *)
Definition _processFrame (s : Session) (frame : Frame.t Value) : Outcome unit :=
  match begin_for_us s frame with
  | Some b => _beginReceived (fire beginReceived s) (Frame.channel frame) b
  | None =>
  if invalid_channel s frame then Return tt s else
  match Frame.body frame with
  | End_ f =>
      let s := fire endReceived s in
      let s := _endReceived s f in
      let s := if decide (sessionSM s = UNMAPPED) then s
               else _sendEnd (fire sendEnd s) in
      Return tt (_unmap s)
  | Attach f =>
      match truthy_name (AttachFrame.name f) with
      | Some n =>
          match _linksByName s !! n with
          | Some l => Return tt (log (link_call l (link_attachReceived f)) s)
          | None =>
              (* an inherited property is truthy and has no [_attachReceived] *)
              if inherited n then Throw TypeError s
              else Return tt (log (console_warn (UnknownAttach (AttachFrame.name f))) s)
          end
      | None => Return tt (log (console_warn (UnknownAttach (AttachFrame.name f))) s)
      end
  | Detach f =>
      match DetachFrame.handle f with
      | undefined => Return tt (log (console_warn (UnknownDetach undefined)) s)
      | h =>
          match _linksByRemoteHandle s !! h with
          | Some l => Return tt (log (link_call l (link_detachReceived f)) s)
          | None => Return tt (log (console_warn (UnknownDetach h)) s)
          end
      end
  | Flow f =>
      bind (_flowReceived s f) (fun _ s =>
        match FlowFrame.handle f with
        | null =>
            Return tt (fold_left
                         (fun s senderLink => log (link_call senderLink (link_flowReceived f)) s)
                         (_senderLinks s) s)
        | h =>
            match _linksByRemoteHandle s !! h with
            | Some l => Return tt (log (link_call l (link_flowReceived f)) s)
            | None => Return tt (log (console_warn (UnknownFlow h)) s)
            end
        end)
  | Transfer f =>
      match TransferFrame.handle f with
      | null => Return tt (log (console_warn (UnknownTransfer null)) s)
      | h =>
          match _linksByRemoteHandle s !! h with
          | Some l =>
              bind (_transferReceived s f) (fun _ s =>
                Return tt (log (link_call l (link_messageReceived f)) s))
          | None => Return tt (log (console_warn (UnknownTransfer h)) s)
          end
      end
  | Disposition f =>
      match DispositionFrame.role f with
      | sender => Return tt s
      | receiver =>
          let first := DispositionFrame.first f in
          let last := or_else (DispositionFrame.last f) first in
          let settled := DispositionFrame.settled f in
          let s := if settled
                   then set_transfersInFlight
                          (settle_loop (_transfersInFlight s)
                             (Z.to_nat (last - first + 1)) first) s
                   else s in
          Return tt (log (emit (DispositionReceived first last settled
                                  (DispositionFrame.state f))) s)
      end
  | Begin _ | OtherFrame => Return tt s
  end
  end.

(** Frames delivered one after the other; an exception leaves the state
    where the throw found it, and the next frame is processed from there. *)
Definition processFrames (s : Session) (frames : list (Frame.t Value)) : Session :=
  fold_left (fun s frame => state_of (_processFrame s frame)) frames s.

End SessionLayer.

Arguments InFlight : clear implicits.
Arguments LinkMethod : clear implicits.
Arguments Notification : clear implicits.
Arguments Effect : clear implicits.
Arguments Session : clear implicits.
Arguments Outcome : clear implicits.
Arguments Return {Value A} a s.
Arguments Throw {Value A} e s.

(** One call of [sendMessage]: the link, the message, the options and the
    clock reading. *)
Definition Send (Value : Type) : Type := (Link.t * Value * Value * Z)%type.

(** [sendMessage] called once per element, in order; a call that throws
    leaves the state it reached. *)
Definition sendMessages {Value} (s : Session Value) (sends : list (Send Value))
  : Session Value :=
  fold_left (fun s '(link, msg, opts, now) => state_of (sendMessage s link msg opts now))
    sends s.

(** [attachLink] called once per policy, in order: the outcome of each
    call. *)
Fixpoint attachLinks {Value} (s : Session Value) (policies : list LinkPolicy.t)
  : list (Outcome Value Link.t) :=
  match policies with
  | [] => []
  | linkPolicy :: rest =>
      let o := attachLink s linkPolicy in
      o :: attachLinks (state_of o) rest
  end.

(** The unmap cleanups a trace holds: its [Session.Unmapped] events. *)
Fixpoint cleanups {Value} (t : list (Effect Value)) : nat :=
  match t with
  | [] => O
  | emit Unmapped :: t' => S (cleanups t')
  | _ :: t' => cleanups t'
  end.

(** What [_unmap] does out of the session when the channel is [ch]. *)
Definition cleanup {Value} (ch : Z) : list (Effect Value) :=
  [removeListener_FrameReceived; dissociateSession ch; emit Unmapped].

(** What [_endReceived] emits for an End frame. *)
Definition error_events {Value} (f : EndFrame.t Value) : list (Effect Value) :=
  match EndFrame.error f with
  | Some e => [emit (ErrorReceived e)]
  | None => []
  end.

(** ** Sequences of calls

    What can happen to a session from outside: a call of one of its
    methods, or a frame handed to [_processFrame] by the connection. *)
Inductive Op (Value : Type) : Type :=
  | call_begin (sessionPolicy : SessionPolicy.t) (ch : Z)
  | call_attachLink (linkPolicy : LinkPolicy.t)
  | call_detachLink (link : Link.t)
  | call_sendMessage (link : Link.t) (msg opts : Value) (now : Z)
  | call_addWindow (windowSize : Z)
  | call_end
  | call_linkAttached (link : Link.t)
  | call_linkDetached (link : Link.t)
  | frame_received (frame : Frame.t Value).
Arguments call_begin {Value} sessionPolicy ch.
Arguments call_attachLink {Value} linkPolicy.
Arguments call_detachLink {Value} link.
Arguments call_sendMessage {Value} link msg opts now.
Arguments call_addWindow {Value} windowSize.
Arguments call_end {Value}.
Arguments call_linkAttached {Value} link.
Arguments call_linkDetached {Value} link.
Arguments frame_received {Value} frame.

(** The session after one of them; a call that throws leaves the state it
    reached. *)
Definition step {Value} (defaultHandleMax : Z) (unhandled : State -> Event -> State)
    (s : Session Value) (op : Op Value) : Session Value :=
  match op with
  | call_begin sessionPolicy ch => begin unhandled s sessionPolicy ch
  | call_attachLink linkPolicy => state_of (attachLink s linkPolicy)
  | call_detachLink link => detachLink s link
  | call_sendMessage link msg opts now => state_of (sendMessage s link msg opts now)
  | call_addWindow windowSize => state_of (addWindow s windowSize)
  | call_end => end_ unhandled s
  | call_linkAttached link => _linkAttached s link
  | call_linkDetached link => _linkDetached s link
  | frame_received frame => state_of (_processFrame defaultHandleMax unhandled s frame)
  end.

Definition run {Value} (defaultHandleMax : Z) (unhandled : State -> Event -> State)
    (s : Session Value) (ops : list (Op Value)) : Session Value :=
  fold_left (step defaultHandleMax unhandled) ops s.

(** Transfer frames arriving on channel [r]. *)
Definition transfer_frames {Value} (r : Z) (tfs : list TransferFrame.t)
  : list (Frame.t Value) :=
  map (fun f => Frame.mk (Some r) (Transfer f)) tfs.

(** [op] is a call of [begin]. *)
Definition is_begin {Value} (op : Op Value) : bool :=
  match op with
  | call_begin _ _ => true
  | _ => false
  end.

(** [op] is the receipt of a Disposition frame. *)
Definition is_disposition {Value} (op : Op Value) : bool :=
  match op with
  | frame_received frame =>
      match Frame.body frame with
      | Disposition _ => true
      | _ => false
      end
  | _ => false
  end.

(** ** Sample sessions

    A session as the default policy of the client begins it
    ([nextOutgoingId = 0], both windows 10), mapped on local channel 1 and
    remote channel 7, with payloads written as strings. *)

Module Samples.

(** stately.js leaves the machine where it is on an event the current
    state does not define. *)
Definition stately (st : State) (ev : Event) : State := st.

Definition defaultHandleMax : Z := 4294967295.

Definition options : SessionParams.t :=
  SessionParams.mk 0 10 10 None None None None.

Definition checked : SessionPolicy.t := SessionPolicy.mk options true.

Definition unchecked : SessionPolicy.t := SessionPolicy.mk options false.

(** The parameters once the peer's Begin (incomingWindow 10, handleMax 2)
    has been taken in. *)
Definition params : SessionParams.t :=
  SessionParams.mk 0 10 10 (Some 0) (Some 10) (Some 10) (Some 2).

Definition session_with (pol : SessionPolicy.t) (p : SessionParams.t) : Session string :=
  mkSession true (Some 1) (Some 7) ∅ ∅ ∅ [] ∅ MAPPED (Some pol) (Some p) (Some 0) [].

Definition session : Session string := session_with checked params.

(** No credit left at the peer. *)
Definition exhausted : SessionParams.t :=
  SessionParams.mk 3 10 7 (Some 0) (Some 0) (Some 10) (Some 2).

(** A session that begun and has not seen the peer's Begin. *)
Definition begun : Session string := begin stately new_Session checked 1.

Definition outLink : Link.t := Link.mk 0 "out" sender.

Definition inLink : Link.t := Link.mk 1 "in" receiver.

(** The sample session with two links attached, [inLink] known to the
    peer under handle 5, and delivery 11 in flight. *)
Definition busy : Session string :=
  mkSession true (Some 1) (Some 7)
    (<[0 := Attached outLink]> (<[1 := Attached inLink]> ∅))
    (<["out"%string := outLink]> (<["in"%string := inLink]> ∅))
    (<[val 5 := inLink]> ∅)
    [outLink]
    (<[11 := mkInFlight "m11"%string "{}"%string 1000]> ∅)
    MAPPED (Some checked) (Some params) (Some 0) [].

Definition send (msg : string) : Send string := (outLink, msg, "{}"%string, 1000).

Definition beginFrame : BeginFrame.t := BeginFrame.mk (Some 1) 0 10 10 (val 2).

Definition endFrame : Frame.t string := Frame.mk (Some 7) (End_ (EndFrame.mk None)).

Definition flowFrame (handle : Nullable Z) : FlowFrame.t :=
  FlowFrame.mk (val 1) 5 0 10 handle.

(** A transfer for handle 3, which no link of [busy] has. *)
Definition strayTransfer : TransferFrame.t := TransferFrame.mk (val 3) (val 0).

Definition settle_10_12 : DispositionFrame.t string :=
  DispositionFrame.mk receiver 10 (val 12) true "accepted"%string.

Definition linkPolicy (n : string) : LinkPolicy.t := LinkPolicy.mk (NameString n) sender.

(** The peer grants 100 transfers, the local outgoingWindow is 10. *)
Definition lopsided : SessionParams.t :=
  SessionParams.mk 0 10 10 (Some 0) (Some 100) (Some 10) (Some 2).

(** Both send windows at -2, as a Flow frame that takes credit back can
    leave remoteIncomingWindow after outgoingWindow dropped below zero. *)
Definition overdrawn : SessionParams.t :=
  SessionParams.mk 12 10 (-2) (Some 0) (Some (-2)) (Some 10) (Some 2).

End Samples.

(** * Properties *)

Section Properties.

Context {Value : Type}.
Variable defaultHandleMax : Z.
Variable unhandled : State -> Event -> State.

Implicit Types (s : Session Value) (p : SessionParams.t).

(** ** Sending *)

Lemma sendMessage_nextOutgoingId s p link msg opts now :
  _sessionParams s = Some p ->
  exists p', _sessionParams (state_of (sendMessage s link msg opts now)) = Some p' /\
             SessionParams.nextOutgoingId p' = SessionParams.nextOutgoingId p + 1.
Proof.
  intros Hp. unfold sendMessage. rewrite Hp. cbn zeta.
  destruct (js_neg _); [destruct (policy _) as [pol|]; [destruct (SessionPolicy.enableSessionFlowControl pol)|]|];
    simpl; eexists; split; reflexivity.
Qed.

Lemma sendMessages_cons s link msg opts now (sends : list (Send Value)) :
  sendMessages s ((link, msg, opts, now) :: sends)
  = sendMessages (state_of (sendMessage s link msg opts now)) sends.
Proof. reflexivity. Qed.

Lemma sendMessages_nextOutgoingId (sends : list (Send Value)) : forall s p,
  _sessionParams s = Some p ->
  exists p', _sessionParams (sendMessages s sends) = Some p' /\
             SessionParams.nextOutgoingId p'
             = SessionParams.nextOutgoingId p + Z.of_nat (length sends).
Proof.
  induction sends as [|[[[link msg] opts] now] sends IH]; intros s p Hp.
  - exists p. split; [exact Hp | simpl; lia].
  - destruct (sendMessage_nextOutgoingId s p link msg opts now Hp) as (p1 & Hp1 & Hn1).
    destruct (IH _ _ Hp1) as (p' & Hp' & Hn').
    exists p'. rewrite sendMessages_cons. split; [exact Hp'|]. rewrite Hn', Hn1. simpl length. lia.
Qed.

(** ** Flow frames *)

(** C1. [_flowReceived] sets nextIncomingId to the frame's nextOutgoingId
    and remoteOutgoingWindow to the frame's outgoingWindow, and recomputes
    remoteIncomingWindow as [initialOutgoingId + frame.incomingWindow -
    nextOutgoingId] when the frame's nextIncomingId is undefined or null,
    and as [frame.nextIncomingId + frame.incomingWindow - nextOutgoingId]
    when it is present; the other parameters are left as they were.  After
    three sends from nextOutgoingId = X, a Flow frame with nextIncomingId =
    X+1 and incomingWindow = 5 gives remoteIncomingWindow = 3. *)
Theorem C1_flowReceived_recompute s p x0 (frame : FlowFrame.t) :
  _sessionParams s = Some p ->
  _initialOutgoingId s = Some x0 ->
  (exists p',
      _flowReceived s frame = Return tt (set_sessionParams (Some p') s) /\
      SessionParams.nextIncomingId p' = Some (FlowFrame.nextOutgoingId frame) /\
      SessionParams.remoteOutgoingWindow p' = Some (FlowFrame.outgoingWindow frame) /\
      SessionParams.remoteIncomingWindow p'
      = Some (match FlowFrame.nextIncomingId frame with
              | undefined | null =>
                  x0 + FlowFrame.incomingWindow frame - SessionParams.nextOutgoingId p
              | val nextIncomingId =>
                  nextIncomingId + FlowFrame.incomingWindow frame
                  - SessionParams.nextOutgoingId p
              end) /\
      SessionParams.nextOutgoingId p' = SessionParams.nextOutgoingId p /\
      SessionParams.incomingWindow p' = SessionParams.incomingWindow p /\
      SessionParams.outgoingWindow p' = SessionParams.outgoingWindow p /\
      SessionParams.handleMax p' = SessionParams.handleMax p) /\
  (forall (a b c : Send Value),
      FlowFrame.nextIncomingId frame = val (SessionParams.nextOutgoingId p + 1) ->
      FlowFrame.incomingWindow frame = 5 ->
      SessionParams.remoteIncomingWindow
        <$> _sessionParams (state_of (_flowReceived (sendMessages s [a; b; c]) frame))
      = Some (Some 3)).
Proof.
  intros Hp Hx. split.
  - unfold _flowReceived. rewrite Hp, Hx. cbn zeta.
    eexists. split; [reflexivity|].
    destruct (FlowFrame.nextIncomingId frame); simpl; repeat split; reflexivity.
  - intros a b c Hn Hw.
    destruct (sendMessages_nextOutgoingId [a; b; c] s p Hp) as (p3 & Hp3 & Hn3).
    unfold _flowReceived. rewrite Hp3, Hn, Hw. simpl.
    rewrite Hn3. simpl length. do 2 f_equal. lia.
Qed.

(** C3. [sendMessage] takes the pre-call nextOutgoingId as the delivery
    id, adds one to nextOutgoingId and takes one from remoteIncomingWindow
    and outgoingWindow.  When remoteIncomingWindow is then negative: with
    session flow control enabled the call throws an over-capacity error
    and the counters keep their new values; with flow control disabled
    both windows are set to zero and the send goes on.  A send that goes
    on records the in-flight entry under the delivery id and hands the
    message to the link. *)
Theorem C3_sendMessage_counters s p w pol link (msg opts : Value) now :
  _sessionParams s = Some p ->
  SessionParams.remoteIncomingWindow p = Some w ->
  policy s = Some pol ->
  let messageId := SessionParams.nextOutgoingId p in
  let counted (remoteIncomingWindow outgoingWindow : Z) :=
    SessionParams.mk (messageId + 1) (SessionParams.incomingWindow p) outgoingWindow
      (SessionParams.nextIncomingId p) (Some remoteIncomingWindow)
      (SessionParams.remoteOutgoingWindow p) (SessionParams.handleMax p) in
  let sent p' :=
    log (link_call link (link_sendMessage messageId msg opts))
      (set_transfersInFlight
         (<[messageId := mkInFlight msg opts now]> (_transfersInFlight s))
         (set_sessionParams (Some p') s)) in
  sendMessage s link msg opts now
  = if decide (w - 1 < 0) then
      if SessionPolicy.enableSessionFlowControl pol
      then Throw OverCapacityError
             (set_sessionParams
                (Some (counted (w - 1) (SessionParams.outgoingWindow p - 1))) s)
      else Return tt (sent (counted 0 0))
    else Return tt (sent (counted (w - 1) (SessionParams.outgoingWindow p - 1))).
Proof.
  intros Hp Hw Hpol. unfold sendMessage. rewrite Hp. cbn zeta. simpl.
  rewrite Hw, Hpol. simpl. unfold Z.pred.
  destruct (decide (w - 1 < 0)) as [Hneg|Hpos].
  - replace (w + -1 <? 0) with true by (symmetry; apply Z.ltb_lt; lia).
    destruct (SessionPolicy.enableSessionFlowControl pol); reflexivity.
  - replace (w + -1 <? 0) with false by (symmetry; apply Z.ltb_ge; lia).
    reflexivity.
Qed.

(** C9. When [sendMessage] throws the over-capacity error, flow control is
    enabled and the decremented remoteIncomingWindow is negative; the
    in-flight table is what it was, nothing was called on the link (the
    trace is what it was), and nextOutgoingId, remoteIncomingWindow and
    outgoingWindow hold their updated values. *)
Theorem C9_failed_send_not_tracked s link (msg opts : Value) now s' :
  sendMessage s link msg opts now = Throw OverCapacityError s' ->
  _transfersInFlight s' = _transfersInFlight s /\
  trace s' = trace s /\
  exists p pol,
    _sessionParams s = Some p /\
    policy s = Some pol /\
    SessionPolicy.enableSessionFlowControl pol = true /\
    js_neg (js_dec (SessionParams.remoteIncomingWindow p)) = true /\
    _sessionParams s'
    = Some (SessionParams.mk (SessionParams.nextOutgoingId p + 1)
              (SessionParams.incomingWindow p) (SessionParams.outgoingWindow p - 1)
              (SessionParams.nextIncomingId p)
              (js_dec (SessionParams.remoteIncomingWindow p))
              (SessionParams.remoteOutgoingWindow p) (SessionParams.handleMax p)).
Proof.
  unfold sendMessage. destruct (_sessionParams s) as [p|] eqn:Hp; [|discriminate].
  cbn zeta. simpl.
  destruct (js_neg (js_dec (SessionParams.remoteIncomingWindow p))) eqn:Hneg; [|discriminate].
  destruct (policy s) as [pol|] eqn:Hpol; [|discriminate].
  destruct (SessionPolicy.enableSessionFlowControl pol) eqn:Hfc; [|discriminate].
  intros [= <-]. simpl. repeat split.
  exists p, pol. repeat split; assumption.
Qed.

(** With flow control disabled, one send returns; remoteIncomingWindow
    goes from [a] to [max 0 (a - 1)], and outgoingWindow loses one, or is
    set to zero when remoteIncomingWindow had nothing left. *)
Lemma sendMessage_unchecked_step s p pol a b link (msg opts : Value) now :
  _sessionParams s = Some p ->
  policy s = Some pol ->
  SessionPolicy.enableSessionFlowControl pol = false ->
  SessionParams.remoteIncomingWindow p = Some a ->
  SessionParams.outgoingWindow p = b ->
  exists s' p',
    sendMessage s link msg opts now = Return tt s' /\
    _sessionParams s' = Some p' /\
    policy s' = Some pol /\
    SessionParams.remoteIncomingWindow p' = Some (Z.max 0 (a - 1)) /\
    SessionParams.outgoingWindow p' = (if decide (1 <= a) then b - 1 else 0).
Proof.
  intros Hp Hpol Hfc Hw Ho. unfold sendMessage. rewrite Hp. cbn zeta. simpl.
  rewrite Hw, Hpol, Hfc, Ho. simpl. unfold Z.pred.
  destruct (Z.ltb_spec (a + -1) 0) as [Hneg|Hpos]; eexists; eexists;
    (split; [reflexivity|]); simpl; repeat split; try assumption.
  all: cbn; destruct (decide (1 <= a)); try f_equal; lia.
Qed.

Lemma sendMessages_unchecked_nonneg (sends : list (Send Value)) : forall s p pol a b,
  _sessionParams s = Some p ->
  policy s = Some pol ->
  SessionPolicy.enableSessionFlowControl pol = false ->
  SessionParams.remoteIncomingWindow p = Some a ->
  SessionParams.outgoingWindow p = b ->
  0 <= a ->
  exists p',
    _sessionParams (sendMessages s sends) = Some p' /\
    SessionParams.remoteIncomingWindow p' = Some (Z.max 0 (a - Z.of_nat (length sends))) /\
    SessionParams.outgoingWindow p'
    = (if decide (Z.of_nat (length sends) <= a) then b - Z.of_nat (length sends) else 0).
Proof.
  induction sends as [|[[[link msg] opts] now] sends IH];
    intros s p pol a b Hp Hpol Hfc Hw Ho Ha.
  - exists p. simpl length. split; [exact Hp|]. split; [rewrite Hw; f_equal; lia|].
    destruct (decide (Z.of_nat 0 <= a)); lia.
  - destruct (sendMessage_unchecked_step s p pol a b link msg opts now Hp Hpol Hfc Hw Ho)
      as (s1 & p1 & Hsend & Hp1 & Hpol1 & Hw1 & Ho1).
    rewrite sendMessages_cons, Hsend. simpl state_of.
    destruct (IH s1 p1 pol (Z.max 0 (a - 1)) _ Hp1 Hpol1 Hfc Hw1 Ho1 ltac:(lia))
      as (p' & Hp' & Hw' & Ho').
    exists p'. split; [exact Hp'|].
    rewrite Hw', Ho'. simpl length.
    split; [f_equal; lia|].
    destruct (decide (1 <= a)); destruct (decide (Z.of_nat (length sends) <= Z.max 0 (a - 1)));
      destruct (decide (Z.of_nat (S (length sends)) <= a)); lia.
Qed.

(** C7, as the code has it.  With session flow control disabled and no
    Flow frame in between, M calls of [sendMessage] leave
    remoteIncomingWindow at [max 0 (a - M)], [a] being its value before
    the first send: a send never leaves it negative.  outgoingWindow is
    not tested by itself: it loses one per send and is set to zero only
    by a send that finds remoteIncomingWindow used up, so that it holds
    [b - M] as long as M <= a and 0 afterwards.  When both windows start
    from a common value, both hold [max 0 (initial - M)], which is not
    negative.  (With no send at all, a window holds what it held: the
    equation for M = 0 needs a start that is not negative.) *)
Theorem C7_unchecked_windows s p pol a b (sends : list (Send Value)) :
  _sessionParams s = Some p ->
  policy s = Some pol ->
  SessionPolicy.enableSessionFlowControl pol = false ->
  SessionParams.remoteIncomingWindow p = Some a ->
  SessionParams.outgoingWindow p = b ->
  0 <= a \/ sends <> [] ->
  let M := Z.of_nat (length sends) in
  exists p',
    _sessionParams (sendMessages s sends) = Some p' /\
    SessionParams.remoteIncomingWindow p' = Some (Z.max 0 (a - M)) /\
    SessionParams.outgoingWindow p' = (if decide (M <= Z.max 0 a) then b - M else 0) /\
    (a = b ->
     SessionParams.outgoingWindow p' = Z.max 0 (a - M) /\
     0 <= SessionParams.outgoingWindow p').
Proof.
  intros Hp Hpol Hfc Hw Ho Hcase M.
  assert (Hgoal : exists p',
    _sessionParams (sendMessages s sends) = Some p' /\
    SessionParams.remoteIncomingWindow p' = Some (Z.max 0 (a - M)) /\
    SessionParams.outgoingWindow p' = (if decide (M <= Z.max 0 a) then b - M else 0)).
  { destruct (Z_le_gt_dec 0 a) as [Hnn|Hlt].
    - destruct (sendMessages_unchecked_nonneg sends s p pol a b Hp Hpol Hfc Hw Ho Hnn)
        as (p' & Hp' & Hw' & Ho').
      exists p'. split; [exact Hp'|]. split; [exact Hw'|].
      rewrite Ho'. subst M. rewrite Z.max_r by lia. reflexivity.
    - destruct sends as [|[[[link msg] opts] now] sends].
      + destruct Hcase as [Hc|Hc]; [lia | congruence].
      + destruct (sendMessage_unchecked_step s p pol a b link msg opts now Hp Hpol Hfc Hw Ho)
          as (s1 & p1 & Hsend & Hp1 & Hpol1 & Hw1 & Ho1).
        rewrite sendMessages_cons, Hsend. simpl state_of.
        destruct (sendMessages_unchecked_nonneg sends s1 p1 pol (Z.max 0 (a - 1)) _
                    Hp1 Hpol1 Hfc Hw1 Ho1 ltac:(lia)) as (p' & Hp' & Hw' & Ho').
        exists p'. split; [exact Hp'|].
        rewrite Hw', Ho'. subst M. simpl length.
        split; [f_equal; lia|].
        destruct (decide (1 <= a)); [lia|].
        destruct (decide (Z.of_nat (length sends) <= Z.max 0 (a - 1)));
          destruct (decide (Z.of_nat (S (length sends)) <= Z.max 0 a)); lia. }
  destruct Hgoal as (p' & Hp' & Hw' & Ho').
  exists p'. split; [exact Hp'|]. split; [exact Hw'|]. split; [exact Ho'|].
  intros <-. rewrite Ho'.
  assert (Hsent : 0 <= a \/ 1 <= M).
  { destruct Hcase as [Hc|Hc]; [left; exact Hc|]. right. subst M.
    destruct sends; [congruence | simpl length; lia]. }
  destruct (decide (M <= Z.max 0 a)); lia.
Qed.

(** ** Frame dispatch *)

Lemma begin_for_us_other s (frame : Frame.t Value) :
  (forall b, Frame.body frame <> Begin b) -> begin_for_us s frame = None.
Proof.
  intros Hb. unfold begin_for_us. destruct (Frame.body frame) eqn:E; try reflexivity.
  exfalso. eapply Hb. reflexivity.
Qed.





(** ** Settlement *)

Lemma settle_loop_lookup (n : nat) : forall (inFlight : gmap Z (InFlight Value)) first k,
  settle_loop inFlight n first !! k
  = if decide (first <= k < first + Z.of_nat n) then None else inFlight !! k.
Proof.
  induction n as [|n IH]; intros inFlight first k.
  - simpl. destruct (decide _) as [H|H]; [lia | reflexivity].
  - cbn [settle_loop].
    destruct (inFlight !! first) as [entry|] eqn:Hfirst; rewrite IH.
    + destruct (decide (first + 1 <= k < first + 1 + Z.of_nat n)) as [H1|H1];
        destruct (decide (first <= k < first + Z.of_nat (S n))) as [H2|H2];
        try reflexivity; try lia.
      destruct (decide (k = first)) as [->|Hne].
      * apply lookup_delete_eq.
      * lia.
      * rewrite lookup_delete_ne by lia. reflexivity.
    + destruct (decide (first + 1 <= k < first + 1 + Z.of_nat n)) as [H1|H1];
        destruct (decide (first <= k < first + Z.of_nat (S n))) as [H2|H2];
        try reflexivity; try lia.
      assert (k = first) by lia. subst k. exact Hfirst.
Qed.

Lemma settle_loop_range (inFlight : gmap Z (InFlight Value)) first last k :
  settle_loop inFlight (Z.to_nat (last - first + 1)) first !! k
  = if decide (first <= k <= last) then None else inFlight !! k.
Proof.
  rewrite settle_loop_lookup.
  destruct (decide (first <= k < first + Z.of_nat (Z.to_nat (last - first + 1)))) as [H1|H1];
    destruct (decide (first <= k <= last)) as [H2|H2]; try reflexivity; lia.
Qed.

Lemma settle_loop_twice (inFlight : gmap Z (InFlight Value)) n first :
  settle_loop (settle_loop inFlight n first) n first = settle_loop inFlight n first.
Proof.
  apply map_eq. intros k. rewrite !settle_loop_lookup.
  destruct (decide _); reflexivity.
Qed.

(** C5. A settled receiver-role Disposition frame for [first .. last]
    ([last] being [first] when the frame gives none) removes from the
    in-flight table the ids of the range that are tracked and nothing
    else, passes over the ids of the range that are not tracked, and emits
    the disposition notification with first, last, settled and state in
    every case.  Processing the same frame again returns as well, removes
    nothing and emits the notification again. *)
Theorem C5_settled_disposition s (frame : Frame.t Value) f :
  Frame.body frame = Disposition f ->
  invalid_channel s frame = false ->
  DispositionFrame.role f = receiver ->
  DispositionFrame.settled f = true ->
  let first := DispositionFrame.first f in
  let last := or_else (DispositionFrame.last f) first in
  let note := emit (DispositionReceived first last true (DispositionFrame.state f)) in
  exists s1 s2,
    _processFrame defaultHandleMax unhandled s frame = Return tt s1 /\
    (forall k, _transfersInFlight s1 !! k
               = if decide (first <= k <= last) then None else _transfersInFlight s !! k) /\
    trace s1 = trace s ++ [note] /\
    _processFrame defaultHandleMax unhandled s1 frame = Return tt s2 /\
    _transfersInFlight s2 = _transfersInFlight s1 /\
    trace s2 = trace s1 ++ [note].
Proof.
  intros Hbody Hch Hrole Hsettled first last note.
  assert (Hnb : forall s', begin_for_us s' frame = None)
    by (intros s'; apply begin_for_us_other; intros b; rewrite Hbody; discriminate).
  assert (Hstep : forall s', invalid_channel s' frame = false ->
    _processFrame defaultHandleMax unhandled s' frame
    = Return tt (log note (set_transfersInFlight
                             (settle_loop (_transfersInFlight s')
                                (Z.to_nat (last - first + 1)) first) s'))).
  { intros s' Hch'. unfold _processFrame.
    rewrite Hnb, Hch', Hbody, Hrole, Hsettled. reflexivity. }
  eexists. eexists. split; [exact (Hstep s Hch)|].
  split; [intros k; simpl; apply settle_loop_range|].
  split; [reflexivity|].
  split; [apply Hstep; exact Hch|].
  split; [simpl; apply settle_loop_twice | reflexivity].
Qed.

(** ** Handle allocation *)

Lemma _nextHandle_loop_Some (handles : gmap Z Slot) (n : nat) : forall start hid,
  _nextHandle_loop handles n start = Some hid ->
  start <= hid < start + Z.of_nat n /\
  handles !! hid = None /\
  (forall j, start <= j < hid -> is_Some (handles !! j)).
Proof.
  induction n as [|n IH]; intros start hid; cbn [_nextHandle_loop]; [discriminate|].
  destruct (handles !! start) as [slot|] eqn:Hstart.
  - intros Hloop. destruct (IH _ _ Hloop) as (Hrange & Hfree & Hbelow).
    split; [lia|]. split; [exact Hfree|].
    intros j Hj. destruct (decide (j = start)) as [->|Hne].
    + rewrite Hstart. eauto.
    + apply Hbelow. lia.
  - intros [= <-]. split; [lia|]. split; [exact Hstart|]. intros j Hj. lia.
Qed.

Lemma _nextHandle_loop_None (handles : gmap Z Slot) (n : nat) : forall start,
  _nextHandle_loop handles n start = None <->
  (forall j, start <= j < start + Z.of_nat n -> is_Some (handles !! j)).
Proof.
  induction n as [|n IH]; intros start; cbn [_nextHandle_loop].
  - split; [intros _ j Hj; lia | reflexivity].
  - destruct (handles !! start) as [slot|] eqn:Hstart.
    + rewrite IH. split; intros Hall j Hj.
      * destruct (decide (j = start)) as [->|Hne]; [rewrite Hstart; eauto | apply Hall; lia].
      * apply Hall. lia.
    + split; [discriminate|]. intros Hall.
      destruct (Hall start ltac:(lia)) as [slot Hslot]. congruence.
Qed.

Lemma attachLink_allocated s p hmax hid (linkPolicy : LinkPolicy.t) :
  _sessionParams s = Some p ->
  SessionParams.handleMax p = Some hmax ->
  _nextHandle_loop (_allocatedHandles s) (Z.to_nat (hmax + 1)) 0 = Some hid ->
  let link := Link.mk hid (resolve_name (LinkPolicy.name linkPolicy))
                (LinkPolicy.role linkPolicy) in
  exists s',
    attachLink s linkPolicy = Return link s' /\
    _sessionParams s' = Some p /\
    _allocatedHandles s' = <[hid := Attached link]> (_allocatedHandles s).
Proof.
  intros Hp Hmax Hloop link. unfold attachLink, _nextHandle.
  rewrite Hp, Hmax, Hloop. cbn [bind].
  eexists. split; [reflexivity|].
  destruct (LinkPolicy.role linkPolicy); simpl; (split; [exact Hp|]);
    apply insert_insert_eq.
Qed.

Lemma attachLink_exhausted s p hmax (linkPolicy : LinkPolicy.t) :
  _sessionParams s = Some p ->
  SessionParams.handleMax p = Some hmax ->
  _nextHandle_loop (_allocatedHandles s) (Z.to_nat (hmax + 1)) 0 = None ->
  attachLink s linkPolicy = Throw OverCapacityError s.
Proof.
  intros Hp Hmax Hloop. unfold attachLink, _nextHandle.
  rewrite Hp, Hmax, Hloop. reflexivity.
Qed.

Lemma attachLink_Return_inv s p hmax (linkPolicy : LinkPolicy.t) link s' :
  _sessionParams s = Some p ->
  SessionParams.handleMax p = Some hmax ->
  attachLink s linkPolicy = Return link s' ->
  _nextHandle_loop (_allocatedHandles s) (Z.to_nat (hmax + 1)) 0 = Some (Link.handle link) /\
  _allocatedHandles s' = <[Link.handle link := Attached link]> (_allocatedHandles s).
Proof.
  intros Hp Hmax Hattach.
  destruct (_nextHandle_loop (_allocatedHandles s) (Z.to_nat (hmax + 1)) 0) as [hid|] eqn:Hloop.
  - destruct (attachLink_allocated s p hmax hid linkPolicy Hp Hmax Hloop) as (s1 & Ha & _ & Hh).
    rewrite Ha in Hattach. injection Hattach as <- <-. split; [reflexivity | exact Hh].
  - rewrite (attachLink_exhausted s p hmax linkPolicy Hp Hmax Hloop) in Hattach. discriminate.
Qed.

(** Handles [0 .. i-1] taken and no other: the scan stops at [i]. *)
Lemma _nextHandle_loop_filled (handles : gmap Z Slot) i (n : nat) : forall start,
  (forall j, is_Some (handles !! j) <-> 0 <= j < i) ->
  0 <= start <= i ->
  i < start + Z.of_nat n ->
  _nextHandle_loop handles n start = Some i.
Proof.
  induction n as [|n IH]; intros start Hfill Hstart Hn; [lia|].
  cbn [_nextHandle_loop].
  destruct (handles !! start) as [slot|] eqn:Hs.
  - assert (0 <= start < i) by (apply Hfill; rewrite Hs; eauto).
    apply IH; [exact Hfill | lia | lia].
  - destruct (decide (start = i)) as [->|Hne]; [reflexivity|].
    assert (Hsome : is_Some (handles !! start)) by (apply Hfill; lia).
    rewrite Hs in Hsome. destruct Hsome as [x Hx]. discriminate.
Qed.

Lemma attachLinks_from_filled (policies : list LinkPolicy.t) : forall s p hmax i,
  _sessionParams s = Some p ->
  SessionParams.handleMax p = Some hmax ->
  0 <= i ->
  (forall j, is_Some (_allocatedHandles s !! j) <-> 0 <= j < i) ->
  forall (k : nat) linkPolicy,
    policies !! k = Some linkPolicy ->
    if decide (i + Z.of_nat k <= hmax)
    then exists s', attachLinks s policies !! k
                    = Some (Return (Link.mk (i + Z.of_nat k)
                                      (resolve_name (LinkPolicy.name linkPolicy))
                                      (LinkPolicy.role linkPolicy)) s')
    else exists s', attachLinks s policies !! k = Some (Throw OverCapacityError s').
Proof.
  induction policies as [|lp policies IH]; intros s p hmax i Hp Hmax Hi Hfill k linkPolicy Hk;
    [discriminate|].
  destruct (decide (i <= hmax)) as [Hroom|Hfull].
  - assert (Hloop : _nextHandle_loop (_allocatedHandles s) (Z.to_nat (hmax + 1)) 0 = Some i)
      by (apply _nextHandle_loop_filled; [exact Hfill | lia | lia]).
    destruct (attachLink_allocated s p hmax i lp Hp Hmax Hloop) as (s1 & Hattach & Hp1 & Hh1).
    cbn [attachLinks]. rewrite Hattach. cbn [state_of].
    destruct k as [|k].
    + injection Hk as ->. rewrite Z.add_0_r.
      destruct (decide (i <= hmax)); [|lia]. exists s1. reflexivity.
    + simpl in Hk.
      assert (Hfill1 : forall j, is_Some (_allocatedHandles s1 !! j) <-> 0 <= j < i + 1).
      { intros j. rewrite Hh1. destruct (decide (j = i)) as [->|Hne].
        - rewrite lookup_insert_eq. split; [lia | eauto].
        - rewrite lookup_insert_ne by congruence. rewrite Hfill. lia. }
      specialize (IH s1 p hmax (i + 1) Hp1 Hmax ltac:(lia) Hfill1 k linkPolicy Hk).
      replace (i + Z.of_nat (S k)) with (i + 1 + Z.of_nat k) by lia.
      exact IH.
  - assert (Hloop : _nextHandle_loop (_allocatedHandles s) (Z.to_nat (hmax + 1)) 0 = None)
      by (apply _nextHandle_loop_None; intros j Hj; apply Hfill; lia).
    cbn [attachLinks]. rewrite (attachLink_exhausted s p hmax lp Hp Hmax Hloop).
    cbn [state_of].
    destruct (decide (i + Z.of_nat k <= hmax)) as [Hle|Hgt]; [lia|].
    destruct k as [|k].
    + exists s. reflexivity.
    + simpl in Hk.
      specialize (IH s p hmax i Hp Hmax Hi Hfill k linkPolicy Hk).
      destruct (decide (i + Z.of_nat k <= hmax)); [lia|]. exact IH.
Qed.

(** C6. With handleMax = H, [attachLink] scans the handles 0..H upwards
    and gives the link the first one that is not allocated: the handle it
    returns lies in [0, H], was free, every smaller handle was taken, and
    it is the link's from then on.  The call throws the over-capacity
    error exactly when all H+1 handles are allocated.  So, from a session
    with no handle allocated, the k-th of a sequence of attaches gets
    handle k-1 as long as k <= H+1, and every later one fails. *)
Theorem C6_handle_allocation s p hmax :
  _sessionParams s = Some p ->
  SessionParams.handleMax p = Some hmax ->
  (forall linkPolicy link s',
      attachLink s linkPolicy = Return link s' ->
      0 <= Link.handle link <= hmax /\
      _allocatedHandles s !! Link.handle link = None /\
      (forall j, 0 <= j < Link.handle link -> is_Some (_allocatedHandles s !! j)) /\
      _allocatedHandles s' = <[Link.handle link := Attached link]> (_allocatedHandles s)) /\
  (forall linkPolicy,
      (forall j, 0 <= j <= hmax -> is_Some (_allocatedHandles s !! j)) <->
      attachLink s linkPolicy = Throw OverCapacityError s) /\
  (forall policies (k : nat) linkPolicy,
      _allocatedHandles s = ∅ ->
      policies !! k = Some linkPolicy ->
      if decide (Z.of_nat k <= hmax)
      then exists s', attachLinks s policies !! k
                      = Some (Return (Link.mk (Z.of_nat k)
                                        (resolve_name (LinkPolicy.name linkPolicy))
                                        (LinkPolicy.role linkPolicy)) s')
      else exists s', attachLinks s policies !! k = Some (Throw OverCapacityError s')).
Proof.
  intros Hp Hmax. split; [|split].
  - intros linkPolicy link s' Hattach.
    destruct (attachLink_Return_inv s p hmax linkPolicy link s' Hp Hmax Hattach)
      as [Hloop Hhandles].
    apply _nextHandle_loop_Some in Hloop. destruct Hloop as (Hrange & Hfree & Hbelow).
    split; [lia|]. split; [exact Hfree|]. split; [|exact Hhandles].
    intros j Hj. apply Hbelow. lia.
  - intros linkPolicy. split.
    + intros Hall. apply (attachLink_exhausted s p hmax linkPolicy Hp Hmax).
      apply _nextHandle_loop_None. intros j Hj. apply Hall. lia.
    + intros Hthrow.
      destruct (_nextHandle_loop (_allocatedHandles s) (Z.to_nat (hmax + 1)) 0)
        as [hid|] eqn:Hloop.
      * destruct (attachLink_allocated s p hmax hid linkPolicy Hp Hmax Hloop)
          as (s1 & Ha & _ & _).
        rewrite Ha in Hthrow. discriminate.
      * intros j Hj. apply (proj1 (_nextHandle_loop_None _ _ _) Hloop). lia.
  - intros policies k linkPolicy Hempty Hk.
    assert (Hfill : forall j, is_Some (_allocatedHandles s !! j) <-> 0 <= j < 0).
    { intros j. rewrite Hempty, lookup_empty. split; [intros [x Hx]; discriminate | lia]. }
    exact (attachLinks_from_filled policies s p hmax 0 Hp Hmax ltac:(lia) Hfill k linkPolicy Hk).
Qed.

(** ** Lifecycle *)

Lemma cleanups_app (t u : list (Effect Value)) :
  cleanups (t ++ u) = (cleanups t + cleanups u)%nat.
Proof.
  induction t as [|e t IH]; [reflexivity|].
  destruct e as [| | | | |[]| |]; simpl; rewrite IH; reflexivity.
Qed.

Lemma cleanups_error_events (f : EndFrame.t Value) : cleanups (error_events f) = O.
Proof. unfold error_events. destruct (EndFrame.error f); reflexivity. Qed.

Lemma _unmap_trace s :
  trace (_unmap s)
  = trace s ++ match channel s with Some ch => cleanup ch | None => [] end.
Proof.
  unfold _unmap. destruct (channel s) as [ch|]; simpl.
  - rewrite <- !app_assoc. reflexivity.
  - now rewrite app_nil_r.
Qed.

Lemma _unmap_sessionSM s : sessionSM (_unmap s) = sessionSM s.
Proof. unfold _unmap. destruct (channel s); reflexivity. Qed.

Lemma _unmap_channels s :
  channel (_unmap s) = None /\
  (is_Some (channel s) -> remoteChannel (_unmap s) = None).
Proof.
  unfold _unmap. destruct (channel s) as [ch|] eqn:Hch; simpl.
  - auto.
  - split; [exact Hch|]. intros [x Hx]. discriminate.
Qed.

Lemma _endReceived_trace s (f : EndFrame.t Value) :
  trace (_endReceived s f) = trace s ++ error_events f.
Proof.
  unfold _endReceived, error_events. destruct (EndFrame.error f); simpl;
    [reflexivity | now rewrite app_nil_r].
Qed.

Lemma _endReceived_fields s (f : EndFrame.t Value) :
  sessionSM (_endReceived s f) = sessionSM s /\
  channel (_endReceived s f) = channel s /\
  remoteChannel (_endReceived s f) = remoteChannel s.
Proof. unfold _endReceived. destruct (EndFrame.error f); auto. Qed.

(** The End branch of [_processFrame]. *)
Lemma End_frame_received s (frame : Frame.t Value) f :
  Frame.body frame = End_ f ->
  invalid_channel s frame = false ->
  _processFrame defaultHandleMax unhandled s frame
  = Return tt (_unmap (let s1 := _endReceived (fire unhandled endReceived s) f in
                       if decide (sessionSM s1 = UNMAPPED) then s1
                       else _sendEnd (fire unhandled sendEnd s1))).
Proof.
  intros Hbody Hch.
  assert (Hnb : begin_for_us s frame = None)
    by (apply begin_for_us_other; intros b; rewrite Hbody; discriminate).
  unfold _processFrame. rewrite Hnb, Hch, Hbody. reflexivity.
Qed.

Lemma End_frame_effect s (frame : Frame.t Value) f :
  Frame.body frame = End_ f ->
  invalid_channel s frame = false ->
  let received := transition unhandled (sessionSM s) endReceived in
  let s' := state_of (_processFrame defaultHandleMax unhandled s frame) in
  sessionSM s'
  = (if decide (received = UNMAPPED) then UNMAPPED
     else transition unhandled received sendEnd) /\
  trace s'
  = trace s ++ error_events f
    ++ (if decide (received = UNMAPPED) then [] else [sendFrame (channel s) OutEnd])
    ++ match channel s with Some ch => cleanup ch | None => [] end.
Proof.
  intros Hbody Hch received s'. subst s'.
  rewrite (End_frame_received s frame f Hbody Hch). cbn [state_of].
  rewrite _unmap_sessionSM, _unmap_trace. cbn zeta.
  destruct (_endReceived_fields (fire unhandled endReceived s) f) as (Hsm & Hc & _).
  rewrite Hsm. change (sessionSM (fire unhandled endReceived s)) with received.
  destruct (decide (received = UNMAPPED)) as [Hu|Hu].
  - rewrite Hsm, Hc, _endReceived_trace. simpl.
    split; [exact Hu|]. rewrite <- app_assoc. reflexivity.
  - simpl. rewrite Hsm, Hc, _endReceived_trace. simpl.
    split; [reflexivity|]. rewrite <- !app_assoc. reflexivity.
Qed.

Lemma End_frame_unmaps s (frame : Frame.t Value) f :
  Frame.body frame = End_ f ->
  invalid_channel s frame = false ->
  is_Some (channel s) ->
  remoteChannel (state_of (_processFrame defaultHandleMax unhandled s frame)) = None.
Proof.
  intros Hbody Hch Hsome.
  rewrite (End_frame_received s frame f Hbody Hch). cbn [state_of].
  apply _unmap_channels. cbn zeta.
  destruct (_endReceived_fields (fire unhandled endReceived s) f) as (_ & Hc & _).
  destruct (decide _); cbn; rewrite Hc; exact Hsome.
Qed.

(** Once unmapped, the session is deaf to End frames. *)
Lemma unmapped_ignores_End s (frame : Frame.t Value) f :
  Frame.body frame = End_ f ->
  remoteChannel s = None ->
  _processFrame defaultHandleMax unhandled s frame = Return tt s.
Proof.
  intros Hbody Hrc.
  assert (Hnb : begin_for_us s frame = None)
    by (apply begin_for_us_other; intros b; rewrite Hbody; discriminate).
  unfold _processFrame. rewrite Hnb.
  assert (Hinv : invalid_channel s frame = true).
  { unfold invalid_channel. destruct (Frame.channel frame) as [c|]; [|reflexivity].
    rewrite Hrc. reflexivity. }
  rewrite Hinv. reflexivity.
Qed.

Lemma unmapped_ignores_Ends (more : list (Frame.t Value)) : forall s,
  Forall (fun frame => exists f, Frame.body frame = End_ f) more ->
  remoteChannel s = None ->
  processFrames defaultHandleMax unhandled s more = s.
Proof.
  induction more as [|frame more IH]; intros s Hall Hrc; [reflexivity|].
  inversion Hall as [|? ? [f Hf] Hrest]; subst.
  unfold processFrames. cbn [fold_left].
  rewrite (unmapped_ignores_End s frame f Hf Hrc). cbn [state_of].
  apply IH; assumption.
Qed.

Lemma begin_fields s0 (pol : SessionPolicy.t) ch :
  let s1 := begin unhandled s0 pol ch in
  sessionSM s1 = transition unhandled (sessionSM s0) sendBegin /\
  channel s1 = Some ch /\
  _sessionParams s1 = Some (SessionPolicy.options pol) /\
  trace s1 = trace s0 ++ [associateSession ch; on_FrameReceived;
                          sendFrame (Some ch) (OutBegin (SessionPolicy.options pol))].
Proof.
  simpl. repeat split. rewrite <- !app_assoc. reflexivity.
Qed.

Lemma Begin_frame_received s p ch cho (bf : BeginFrame.t) :
  channel s = Some ch ->
  _sessionParams s = Some p ->
  BeginFrame.remoteChannel bf = Some ch ->
  exists s2,
    _processFrame defaultHandleMax unhandled s (Frame.mk cho (Begin bf)) = Return tt s2 /\
    sessionSM s2 = transition unhandled (sessionSM s) beginReceived /\
    channel s2 = Some ch /\
    remoteChannel s2 = cho /\
    mapped s2 = true /\
    trace s2 = trace s ++ [emit Mapped].
Proof.
  intros Hch Hp Hrc. unfold _processFrame, begin_for_us. cbn [Frame.body Frame.channel].
  rewrite Hrc, Hch. rewrite decide_True by reflexivity.
  unfold _beginReceived. simpl. rewrite Hp.
  eexists. split; [reflexivity|]. simpl. auto.
Qed.

Lemma end__with_remoteChannel s r :
  remoteChannel s = Some r ->
  let st := transition unhandled (sessionSM s) sendEnd in
  sessionSM (end_ unhandled s) = st /\
  trace (end_ unhandled s)
  = trace s ++ [sendFrame (channel s) OutEnd]
    ++ (if decide (st = UNMAPPED)
        then match channel s with Some ch => cleanup ch | None => [] end
        else []) /\
  (st <> UNMAPPED ->
   channel (end_ unhandled s) = channel s /\ remoteChannel (end_ unhandled s) = Some r).
Proof.
  intros Hrc st. unfold end_. rewrite Hrc. cbn zeta.
  change (sessionSM (_sendEnd (fire unhandled sendEnd s))) with st.
  destruct (decide (st = UNMAPPED)) as [Hu|Hu].
  - rewrite _unmap_sessionSM, _unmap_trace. simpl.
    split; [reflexivity|]. split; [|contradiction].
    rewrite <- !app_assoc. reflexivity.
  - simpl. auto.
Qed.

Lemma end__without_remoteChannel s :
  remoteChannel s = None ->
  sessionSM (end_ unhandled s) = sessionSM s /\
  trace (end_ unhandled s)
  = trace s ++ [console_warn (EndBeforeMapped (channel s))]
    ++ match channel s with Some ch => cleanup ch | None => [] end /\
  channel (end_ unhandled s) = None.
Proof.
  intros Hrc. unfold end_. rewrite Hrc. cbn zeta.
  rewrite _unmap_sessionSM, _unmap_trace. simpl.
  split; [reflexivity|]. split; [rewrite <- !app_assoc; reflexivity|].
  apply _unmap_channels.
Qed.

(** C8. [end()] on a session whose remoteChannel is undefined fires no
    event of the state machine and sends no End frame: it warns and
    unmaps at once (the cleanup runs if a channel is held).  With
    remoteChannel defined, it fires sendEnd, sends an End frame, and runs
    the cleanup within the call only if the state machine is then in
    UNMAPPED. *)
Theorem C8_end_before_mapped s :
  let cleaned := match channel s with Some ch => cleanup ch | None => [] end in
  match remoteChannel s with
  | None =>
      sessionSM (end_ unhandled s) = sessionSM s /\
      trace (end_ unhandled s)
      = trace s ++ [console_warn (EndBeforeMapped (channel s))] ++ cleaned /\
      channel (end_ unhandled s) = None
  | Some _ =>
      let st := transition unhandled (sessionSM s) sendEnd in
      sessionSM (end_ unhandled s) = st /\
      trace (end_ unhandled s)
      = trace s ++ [@sendFrame Value (channel s) OutEnd]
        ++ (if decide (st = UNMAPPED) then cleaned else [])
  end.
Proof.
  intros cleaned. destruct (remoteChannel s) as [r|] eqn:Hrc.
  - destruct (end__with_remoteChannel s r Hrc) as (Hsm & Htr & _). auto.
  - apply end__without_remoteChannel. exact Hrc.
Qed.

(** C4. From UNMAPPED, [begin] leads to BEGIN_SENT and the matching Begin
    frame to MAPPED; from MAPPED, [end()] leads to END_SENT and the End
    frame that follows to UNMAPPED.  On an End frame the session fires
    endReceived, emits the error notification if the frame carries an
    error, fires sendEnd and sends its own End frame only if the state is
    not UNMAPPED by then, and unmaps.  The cleanup (listener removed,
    channel dissociated, one Unmapped event) happens once per mapping:
    End frames that arrive afterwards change nothing. *)
Theorem C4_lifecycle s0 (pol : SessionPolicy.t) ch r (bf : BeginFrame.t)
    (endf : EndFrame.t Value) (more : list (Frame.t Value)) s (frame : Frame.t Value) f :
  sessionSM s0 = UNMAPPED ->
  BeginFrame.remoteChannel bf = Some ch ->
  Forall (fun frame => exists f, Frame.body frame = End_ f) more ->
  Frame.body frame = End_ f ->
  invalid_channel s frame = false ->
  let s1 := begin unhandled s0 pol ch in
  let s2 := state_of (_processFrame defaultHandleMax unhandled s1
                        (Frame.mk (Some r) (Begin bf))) in
  let s3 := end_ unhandled s2 in
  let s4 := state_of (_processFrame defaultHandleMax unhandled s3
                        (Frame.mk (Some r) (End_ endf))) in
  let s3' := state_of (_processFrame defaultHandleMax unhandled s2
                         (Frame.mk (Some r) (End_ endf))) in
  (sessionSM s1 = BEGIN_SENT /\ sessionSM s2 = MAPPED) /\
  (sessionSM s3 = END_SENT /\ trace s3 = trace s2 ++ [sendFrame (Some ch) OutEnd]) /\
  (sessionSM s4 = UNMAPPED /\ trace s4 = trace s3 ++ error_events endf ++ cleanup ch) /\
  (sessionSM s3' = UNMAPPED /\
   trace s3' = trace s2 ++ error_events endf ++ [sendFrame (Some ch) OutEnd] ++ cleanup ch) /\
  (processFrames defaultHandleMax unhandled s4 more = s4 /\
   processFrames defaultHandleMax unhandled s3' more = s3' /\
   cleanups (trace (processFrames defaultHandleMax unhandled s4 more))
   = S (cleanups (trace s0)) /\
   cleanups (trace (processFrames defaultHandleMax unhandled s3' more))
   = S (cleanups (trace s0))) /\
  (let received := transition unhandled (sessionSM s) endReceived in
   let s' := state_of (_processFrame defaultHandleMax unhandled s frame) in
   sessionSM s' = (if decide (received = UNMAPPED) then UNMAPPED
                   else transition unhandled received sendEnd) /\
   trace s' = trace s ++ error_events f
              ++ (if decide (received = UNMAPPED) then []
                  else [sendFrame (channel s) OutEnd])
              ++ match channel s with Some c => cleanup c | None => [] end).
Proof.
  intros H0 Hbf Hmore Hbody Hvalid s1 s2 s3 s4 s3'.
  assert (Es1 : begin unhandled s0 pol ch = s1) by reflexivity.
  assert (Es2 : state_of (_processFrame defaultHandleMax unhandled s1
                            (Frame.mk (Some r) (Begin bf))) = s2) by reflexivity.
  assert (Es3 : end_ unhandled s2 = s3) by reflexivity.
  assert (Es4 : state_of (_processFrame defaultHandleMax unhandled s3
                            (Frame.mk (Some r) (End_ endf))) = s4) by reflexivity.
  assert (Es3' : state_of (_processFrame defaultHandleMax unhandled s2
                             (Frame.mk (Some r) (End_ endf))) = s3') by reflexivity.
  clearbody s1 s2 s3 s4 s3'.
  (* begin *)
  destruct (begin_fields s0 pol ch) as (Hsm1 & Hch1 & Hp1 & Htr1).
  rewrite Es1 in Hsm1, Hch1, Hp1, Htr1. rewrite H0 in Hsm1. cbn in Hsm1.
  (* the Begin frame *)
  destruct (Begin_frame_received s1 _ ch (Some r) bf Hch1 Hp1 Hbf)
    as (s2' & Hrun2 & Hsm2 & Hch2 & Hrc2 & _ & Htr2).
  rewrite Hrun2 in Es2. cbn [state_of] in Es2. subst s2'.
  rewrite Hsm1 in Hsm2. cbn in Hsm2.
  (* end() in MAPPED *)
  destruct (end__with_remoteChannel s2 r Hrc2) as (Hsm3 & Htr3 & Hkeep3).
  rewrite Es3, Hsm2 in Hsm3, Htr3, Hkeep3.
  cbn in Hsm3, Htr3, Hkeep3. rewrite Hch2 in Htr3.
  destruct (Hkeep3 ltac:(discriminate)) as [Hch3 Hrc3]. rewrite Hch2 in Hch3.
  (* the End frame in END_SENT *)
  assert (Hvalid3 : invalid_channel s3 (Frame.mk (Some r) (End_ endf)) = false).
  { unfold invalid_channel. cbn [Frame.channel]. rewrite Hrc3.
    rewrite bool_decide_eq_true_2; reflexivity. }
  destruct (End_frame_effect s3 (Frame.mk (Some r) (End_ endf)) endf eq_refl Hvalid3) as [Hsm4 Htr4].
  rewrite Es4, Hsm3 in Hsm4, Htr4. cbn in Hsm4, Htr4. rewrite Hch3 in Htr4.
  assert (Hrc4 : remoteChannel s4 = None).
  { rewrite <- Es4.
    apply (End_frame_unmaps s3 (Frame.mk (Some r) (End_ endf)) endf eq_refl Hvalid3).
    rewrite Hch3. eauto. }
  (* the End frame in MAPPED *)
  assert (Hvalid2 : invalid_channel s2 (Frame.mk (Some r) (End_ endf)) = false).
  { unfold invalid_channel. cbn [Frame.channel]. rewrite Hrc2.
    rewrite bool_decide_eq_true_2; reflexivity. }
  destruct (End_frame_effect s2 (Frame.mk (Some r) (End_ endf)) endf eq_refl Hvalid2) as [Hsm3' Htr3'].
  rewrite Es3', Hsm2 in Hsm3', Htr3'. cbn in Hsm3', Htr3'. rewrite Hch2 in Htr3'.
  assert (Hrc3' : remoteChannel s3' = None).
  { rewrite <- Es3'.
    apply (End_frame_unmaps s2 (Frame.mk (Some r) (End_ endf)) endf eq_refl Hvalid2).
    rewrite Hch2. eauto. }
  assert (Hc2 : cleanups (trace s2) = cleanups (trace s0)).
  { rewrite Htr2, Htr1, !cleanups_app. simpl. lia. }
  repeat split; try assumption.
  - apply unmapped_ignores_Ends; assumption.
  - apply unmapped_ignores_Ends; assumption.
  - rewrite unmapped_ignores_Ends by assumption.
    rewrite Htr4, Htr3, !cleanups_app, cleanups_error_events, Hc2. simpl. lia.
  - rewrite unmapped_ignores_Ends by assumption.
    rewrite Htr3', !cleanups_app, cleanups_error_events, Hc2. simpl. lia.
  - apply (End_frame_effect s frame f Hbody Hvalid).
  - apply (End_frame_effect s frame f Hbody Hvalid).
Qed.

End Properties.

(** * Further properties of the session *)

Section FurtherProperties.

Context {Value : Type}.
Variable defaultHandleMax : Z.
Variable unhandled : State -> Event -> State.

Implicit Types (s : Session Value) (p : SessionParams.t).

(** ** Before [begin] *)

(** X1. On a session whose [begin] has not run ([_sessionParams] is
    undefined), [sendMessage], [attachLink] and [addWindow] all stop on
    the first read of [this._sessionParams.<field>] with a TypeError, and
    nothing of the session has changed: no id is consumed, no handle
    reserved, no frame sent. *)
Theorem calls_before_begin_throw s link (msg opts : Value) now linkPolicy windowSize :
  _sessionParams s = None ->
  sendMessage s link msg opts now = Throw TypeError s /\
  attachLink s linkPolicy = Throw TypeError s /\
  addWindow s windowSize = Throw TypeError s.
Proof.
  intros Hp. unfold sendMessage, attachLink, _nextHandle, addWindow.
  rewrite Hp. repeat split.
Qed.

(** ** Delivery ids and the send window *)

Lemma sendMessage_keeps s link (msg opts : Value) now :
  let s' := state_of (sendMessage s link msg opts now) in
  _initialOutgoingId s' = _initialOutgoingId s /\
  policy s' = policy s /\
  remoteChannel s' = remoteChannel s /\
  channel s' = channel s /\
  sessionSM s' = sessionSM s /\
  _allocatedHandles s' = _allocatedHandles s.
Proof.
  unfold sendMessage. destruct (_sessionParams s) as [p|]; [|cbn; auto 10]. cbn zeta.
  destruct (js_neg _);
    [destruct (policy _) as [pol|] eqn:Hpol;
     [destruct (SessionPolicy.enableSessionFlowControl pol)|]|];
    cbn in *; auto 10.
Qed.

Lemma sendMessages_keeps (sends : list (Send Value)) : forall s,
  _initialOutgoingId (sendMessages s sends) = _initialOutgoingId s /\
  policy (sendMessages s sends) = policy s.
Proof.
  induction sends as [|[[[link msg] opts] now] sends IH]; intros s; [split; reflexivity|].
  change (sendMessages s ((link, msg, opts, now) :: sends))
    with (sendMessages (state_of (sendMessage s link msg opts now)) sends).
  destruct (IH (state_of (sendMessage s link msg opts now))) as [H1 H2].
  destruct (sendMessage_keeps s link msg opts now) as (K1 & K2 & _).
  rewrite H1, H2. auto.
Qed.

(** X2. Every call of [sendMessage] uses up one delivery id, whether it
    returns or throws: after n calls nextOutgoingId has advanced by
    exactly n. *)
Theorem sends_consume_ids (sends : list (Send Value)) s p :
  _sessionParams s = Some p ->
  exists p',
    _sessionParams (sendMessages s sends) = Some p' /\
    SessionParams.nextOutgoingId p'
    = SessionParams.nextOutgoingId p + Z.of_nat (length sends).
Proof.
  revert s p. induction sends as [|[[[link msg] opts] now] sends IH]; intros s p Hp.
  - exists p. split; [exact Hp | simpl; lia].
  - change (sendMessages s ((link, msg, opts, now) :: sends))
      with (sendMessages (state_of (sendMessage s link msg opts now)) sends).
    destruct (sendMessage_nextOutgoingId s p link msg opts now Hp) as (p1 & Hp1 & Hn1).
    destruct (IH _ _ Hp1) as (p' & Hp' & Hn').
    exists p'. split; [exact Hp'|]. rewrite Hn', Hn1. simpl length. lia.
Qed.

(** With flow control enabled nothing clamps the window: after any sends
    remoteIncomingWindow is down by their number, failed ones included. *)
Lemma sendMessages_checked_window (sends : list (Send Value)) : forall s p pol w,
  _sessionParams s = Some p ->
  policy s = Some pol ->
  SessionPolicy.enableSessionFlowControl pol = true ->
  SessionParams.remoteIncomingWindow p = Some w ->
  exists p',
    _sessionParams (sendMessages s sends) = Some p' /\
    SessionParams.remoteIncomingWindow p' = Some (w - Z.of_nat (length sends)).
Proof.
  induction sends as [|[[[link msg] opts] now] sends IH]; intros s p pol w Hp Hpol Hfc Hw.
  - exists p. split; [exact Hp|]. rewrite Hw. simpl. f_equal. lia.
  - change (sendMessages s ((link, msg, opts, now) :: sends))
      with (sendMessages (state_of (sendMessage s link msg opts now)) sends).
    destruct (sendMessage_keeps s link msg opts now) as (_ & Kpol & _).
    assert (Hstep : exists p1,
      _sessionParams (state_of (sendMessage s link msg opts now)) = Some p1 /\
      SessionParams.remoteIncomingWindow p1 = Some (w - 1)).
    { unfold sendMessage. rewrite Hp. cbn zeta. cbn. rewrite Hw, Hpol, Hfc. cbn.
      destruct (Z.pred w <? 0); cbn; eexists; (split; [reflexivity|]); cbn;
        f_equal; lia. }
    destruct Hstep as (p1 & Hp1 & Hw1).
    rewrite Hpol in Kpol.
    destruct (IH _ p1 pol (w - 1) Hp1 Kpol Hfc Hw1) as (p' & Hp' & Hw').
    exists p'. split; [exact Hp'|]. rewrite Hw'. simpl length. f_equal. lia.
Qed.

(** X3. With session flow control enabled and remoteIncomingWindow at w,
    the k-th call of [sendMessage] in a row (k counted from 0) returns if
    k < w and throws the over-capacity error otherwise: exactly the first
    w sends get through, and every one after them fails until a Flow
    frame recomputes the window. *)
Theorem checked_sends_capacity (sends : list (Send Value)) s p pol w (k : nat)
    link (msg opts : Value) now :
  _sessionParams s = Some p ->
  policy s = Some pol ->
  SessionPolicy.enableSessionFlowControl pol = true ->
  SessionParams.remoteIncomingWindow p = Some w ->
  sends !! k = Some (link, msg, opts, now) ->
  exists s',
    sendMessage (sendMessages s (take k sends)) link msg opts now
    = if decide (Z.of_nat k < w) then Return tt s' else Throw OverCapacityError s'.
Proof.
  intros Hp Hpol Hfc Hw Hk.
  destruct (sendMessages_checked_window (take k sends) s p pol w Hp Hpol Hfc Hw)
    as (pk & Hpk & Hwk).
  destruct (sendMessages_keeps (take k sends) s) as [_ Kpol]. rewrite Hpol in Kpol.
  assert (Hlen : length (take k sends) = k).
  { apply length_take_le. apply Nat.lt_le_incl. apply lookup_lt_is_Some. eauto. }
  rewrite Hlen in Hwk.
  unfold sendMessage. rewrite Hpk. cbn zeta. cbn. rewrite Hwk, Kpol, Hfc. cbn.
  destruct (decide (Z.of_nat k < w)) as [Hlt|Hge].
  - replace (Z.pred (w - Z.of_nat k) <? 0) with false
      by (symmetry; apply Z.ltb_ge; lia).
    eexists. reflexivity.
  - replace (Z.pred (w - Z.of_nat k) <? 0) with true
      by (symmetry; apply Z.ltb_lt; lia).
    eexists. reflexivity.
Qed.

(** A send that returns has put its entry in the table and touched no
    channel. *)
Lemma sendMessage_Return_inFlight s p link (msg opts : Value) now s1 :
  _sessionParams s = Some p ->
  sendMessage s link msg opts now = Return tt s1 ->
  _transfersInFlight s1
  = <[SessionParams.nextOutgoingId p := mkInFlight msg opts now]> (_transfersInFlight s) /\
  remoteChannel s1 = remoteChannel s /\
  trace s1
  = trace s ++ [link_call link (link_sendMessage (SessionParams.nextOutgoingId p) msg opts)].
Proof.
  intros Hp. unfold sendMessage. rewrite Hp. cbn zeta.
  destruct (js_neg _);
    [destruct (policy _) as [pol|];
     [destruct (SessionPolicy.enableSessionFlowControl pol)|]|];
    try discriminate; intros [= <-]; cbn; auto.
Qed.

(** X4. Send, then settle.  The message of a send that returned is in
    flight under the pre-call nextOutgoingId; a settled receiver-role
    Disposition frame for that one id (last equal to it, or left out)
    takes exactly that entry out again, so a table that did not hold the
    id before the send is back to what it was. *)
Theorem send_then_settle s p link (msg opts : Value) now s1 (frame : Frame.t Value) f :
  _sessionParams s = Some p ->
  sendMessage s link msg opts now = Return tt s1 ->
  Frame.body frame = Disposition f ->
  invalid_channel s frame = false ->
  DispositionFrame.role f = receiver ->
  DispositionFrame.settled f = true ->
  DispositionFrame.first f = SessionParams.nextOutgoingId p ->
  DispositionFrame.last f = val (SessionParams.nextOutgoingId p) \/
  DispositionFrame.last f = null \/ DispositionFrame.last f = undefined ->
  let id := SessionParams.nextOutgoingId p in
  _transfersInFlight s1 !! id = Some (mkInFlight msg opts now) /\
  exists s2,
    _processFrame defaultHandleMax unhandled s1 frame = Return tt s2 /\
    _transfersInFlight s2 = delete id (_transfersInFlight s) /\
    (_transfersInFlight s !! id = None -> _transfersInFlight s2 = _transfersInFlight s).
Proof.
  intros Hp Hsend Hbody Hch Hrole Hsettled Hfirst Hlast id.
  destruct (sendMessage_Return_inFlight s p link msg opts now s1 Hp Hsend)
    as (Hflight & Hrc & _).
  split; [rewrite Hflight; apply lookup_insert_eq|].
  assert (Hnb : begin_for_us s1 frame = None)
    by (apply begin_for_us_other; intros b; rewrite Hbody; discriminate).
  assert (Hch1 : invalid_channel s1 frame = false)
    by (unfold invalid_channel in *; rewrite Hrc; exact Hch).
  assert (Hor : or_else (DispositionFrame.last f) (DispositionFrame.first f) = id).
  { rewrite Hfirst. destruct Hlast as [-> | [-> | ->]]; try reflexivity.
    unfold or_else. destruct (Z.eqb _ 0); reflexivity. }
  unfold _processFrame. rewrite Hnb, Hch1, Hbody, Hrole, Hsettled. cbn zeta.
  rewrite Hor, Hfirst. fold id.
  replace (Z.to_nat (id - id + 1)) with 1%nat by lia.
  eexists. split; [reflexivity|]. cbn.
  rewrite Hflight. fold id. rewrite lookup_insert_eq.
  assert (Hdel : delete id (<[id := mkInFlight msg opts now]> (_transfersInFlight s))
                 = delete id (_transfersInFlight s)) by apply delete_insert_eq.
  split; [exact Hdel|].
  intros Hnone. rewrite Hdel. apply delete_id. exact Hnone.
Qed.

(** ** Flow frames and the send window *)

(** X5. A Flow frame that leaves nextIncomingId out, after [begin] and n
    calls of [sendMessage]: the peer has seen none of our transfers, and
    remoteIncomingWindow becomes the frame's incomingWindow less the n ids
    used since [begin]. *)
Theorem flow_without_nextIncomingId_since_begin s0 (pol : SessionPolicy.t) ch
    (sends : list (Send Value)) (f : FlowFrame.t) :
  FlowFrame.nextIncomingId f = undefined \/ FlowFrame.nextIncomingId f = null ->
  let s := sendMessages (begin unhandled s0 pol ch) sends in
  SessionParams.remoteIncomingWindow <$> _sessionParams (state_of (_flowReceived s f))
  = Some (Some (FlowFrame.incomingWindow f - Z.of_nat (length sends))).
Proof.
  intros Habsent s.
  destruct (sendMessages_nextOutgoingId sends (begin unhandled s0 pol ch)
              (SessionPolicy.options pol) eq_refl) as (p' & Hp' & Hn').
  destruct (sendMessages_keeps sends (begin unhandled s0 pol ch)) as [Hinit _].
  fold s in Hp', Hinit. unfold _flowReceived. rewrite Hp', Hinit. cbn.
  destruct Habsent as [-> | ->]; cbn; rewrite Hn'; do 2 f_equal; lia.
Qed.

Lemma broadcast_eq (g : Link.t -> Effect Value) (links : list Link.t) : forall s,
  fold_left (fun s l => log (g l) s) links s = set_trace (trace s ++ map g links) s.
Proof.
  induction links as [|l links IH]; intros s; cbn [fold_left map].
  - rewrite app_nil_r. destruct s; reflexivity.
  - rewrite IH. unfold log, set_trace. cbn. rewrite <- app_assoc. reflexivity.
Qed.

(** What a Flow frame on the remote channel leaves of the session. *)
Lemma Flow_frame_fields s (frame : Frame.t Value) f :
  Frame.body frame = Flow f ->
  invalid_channel s frame = false ->
  let s' := state_of (_processFrame defaultHandleMax unhandled s frame) in
  _sessionParams s' = _sessionParams (state_of (_flowReceived s f)) /\
  _initialOutgoingId s' = _initialOutgoingId s /\
  remoteChannel s' = remoteChannel s /\
  sessionSM s' = sessionSM s /\
  _allocatedHandles s' = _allocatedHandles s /\
  _transfersInFlight s' = _transfersInFlight s.
Proof.
  intros Hbody Hch.
  assert (Hnb : begin_for_us s frame = None)
    by (apply begin_for_us_other; intros b; rewrite Hbody; discriminate).
  unfold _processFrame. rewrite Hnb, Hch, Hbody.
  unfold _flowReceived. destruct (_sessionParams s) as [p|]; [|cbn; auto 10].
  cbn zeta. cbn [bind].
  destruct (FlowFrame.handle f) as [| |h].
  - destruct (_linksByRemoteHandle _ !! undefined); cbn; auto 10.
  - cbn [state_of]. rewrite broadcast_eq. cbn. auto 10.
  - destruct (_linksByRemoteHandle _ !! val h); cbn; auto 10.
Qed.

Lemma _flowReceived_again s s1 (f : FlowFrame.t) :
  _sessionParams s1 = _sessionParams (state_of (_flowReceived s f)) ->
  _initialOutgoingId s1 = _initialOutgoingId s ->
  _sessionParams (state_of (_flowReceived s1 f)) = _sessionParams s1.
Proof.
  intros H1 H2. unfold _flowReceived in H1.
  destruct (_sessionParams s) as [p|] eqn:Hp; cbn in H1; rewrite ?Hp in H1;
    unfold _flowReceived; rewrite H1; [|exact H1].
  cbn. rewrite H2. destruct (FlowFrame.nextIncomingId f); reflexivity.
Qed.

(** X6. The recomputation is absolute: a Flow frame delivered twice in a
    row leaves the session parameters as one delivery does (the links are
    called twice, the windows are not moved twice). *)
Theorem duplicate_flow_frame s (frame : Frame.t Value) f :
  Frame.body frame = Flow f ->
  invalid_channel s frame = false ->
  _sessionParams (processFrames defaultHandleMax unhandled s [frame; frame])
  = _sessionParams (processFrames defaultHandleMax unhandled s [frame]).
Proof.
  intros Hbody Hch. unfold processFrames. cbn [fold_left].
  destruct (Flow_frame_fields s frame f Hbody Hch) as (Hp1 & Hi1 & Hrc1 & _).
  set (s1 := state_of (_processFrame defaultHandleMax unhandled s frame)) in *.
  assert (Hch1 : invalid_channel s1 frame = false)
    by (unfold invalid_channel in *; rewrite Hrc1; exact Hch).
  destruct (Flow_frame_fields s1 frame f Hbody Hch1) as (Hp2 & _).
  rewrite Hp2. apply (_flowReceived_again s s1 f Hp1 Hi1).
Qed.

(** ** Transfers and the receive window *)

Lemma routable_transfers (tfs : list TransferFrame.t) : forall s p r h l,
  remoteChannel s = Some r ->
  _sessionParams s = Some p ->
  h <> null ->
  _linksByRemoteHandle s !! h = Some l ->
  Forall (fun f => TransferFrame.handle f = h) tfs ->
  let s' := processFrames defaultHandleMax unhandled s (transfer_frames r tfs) in
  (exists p',
      _sessionParams s' = Some p' /\
      SessionParams.incomingWindow p'
      = SessionParams.incomingWindow p - Z.of_nat (length tfs) /\
      SessionParams.nextOutgoingId p' = SessionParams.nextOutgoingId p /\
      SessionParams.outgoingWindow p' = SessionParams.outgoingWindow p) /\
  channel s' = channel s /\
  trace s' = trace s ++ map (fun f => link_call l (link_messageReceived f)) tfs.
Proof.
  induction tfs as [|f tfs IH]; intros s p r h l Hrc Hp Hh Hl Hall s'.
  - subst s'. cbn. rewrite app_nil_r. split; [|auto].
    exists p. repeat split; [exact Hp | lia].
  - inversion Hall as [|? ? Hf Hrest]; subst.
    assert (Hstep : exists p1,
      _processFrame defaultHandleMax unhandled s (Frame.mk (Some r) (Transfer f))
      = Return tt (log (link_call l (link_messageReceived f))
                     (set_sessionParams (Some p1) s)) /\
      SessionParams.incomingWindow p1 = SessionParams.incomingWindow p - 1 /\
      SessionParams.nextOutgoingId p1 = SessionParams.nextOutgoingId p /\
      SessionParams.outgoingWindow p1 = SessionParams.outgoingWindow p).
    { unfold _processFrame, begin_for_us, invalid_channel. cbn [Frame.body Frame.channel].
      rewrite Hrc. rewrite bool_decide_eq_true_2 by reflexivity. cbn [negb].
      destruct (TransferFrame.handle f) eqn:Hhf; try congruence;
        rewrite Hl; unfold _transferReceived; rewrite Hp; cbn zeta; cbn [bind];
        eexists; (split; [reflexivity|]);
        destruct (TransferFrame.deliveryId f); cbn; auto. }
    destruct Hstep as (p1 & Hrun & Hw1 & Hn1 & Ho1).
    subst s'. unfold processFrames, transfer_frames. cbn [map fold_left].
    rewrite Hrun. cbn [state_of].
    set (s1 := log (link_call l (link_messageReceived f)) (set_sessionParams (Some p1) s)).
    destruct (IH s1 p1 r (TransferFrame.handle f) l Hrc eq_refl Hh Hl Hrest)
      as ((p' & Hp' & Hw' & Hn' & Ho') & Hc' & Ht').
    unfold processFrames, transfer_frames in Hp', Hc', Ht'.
    split; [|split].
    + exists p'. split; [exact Hp'|]. rewrite Hw', Hn', Ho', Hw1, Hn1, Ho1.
      cbn [length]. repeat split. lia.
    + rewrite Hc'. reflexivity.
    + rewrite Ht'. subst s1. cbn. rewrite <- app_assoc. reflexivity.
Qed.

(** X7. Transfers for a known link are counted and handed on without any
    check of the window: n of them in a row take n from incomingWindow,
    below zero if need be, none throws, and the link receives every one of
    them, in order. *)
Theorem transfers_past_the_window (tfs : list TransferFrame.t) s p r h l :
  remoteChannel s = Some r ->
  _sessionParams s = Some p ->
  h <> null ->
  _linksByRemoteHandle s !! h = Some l ->
  Forall (fun f => TransferFrame.handle f = h) tfs ->
  let s' := processFrames defaultHandleMax unhandled s (transfer_frames r tfs) in
  SessionParams.incomingWindow <$> _sessionParams s'
  = Some (SessionParams.incomingWindow p - Z.of_nat (length tfs)) /\
  trace s' = trace s ++ map (fun f => link_call l (link_messageReceived f)) tfs.
Proof.
  intros Hrc Hp Hh Hl Hall s'.
  destruct (routable_transfers tfs s p r h l Hrc Hp Hh Hl Hall)
    as ((p' & Hp' & Hw' & _) & _ & Ht').
  fold s' in Hp', Ht'. rewrite Hp'. cbn. rewrite Hw'. auto.
Qed.

(** X8. [addWindow] gives back what transfers took: after n transfers for
    a known link, [addWindow(n)] returns, incomingWindow is what it was
    before them, and the Flow frame sent on the session's channel
    advertises that window, with our current nextOutgoingId and
    outgoingWindow, a null handle and drain false. *)
Theorem addWindow_restores_window (tfs : list TransferFrame.t) s p r h l :
  remoteChannel s = Some r ->
  _sessionParams s = Some p ->
  h <> null ->
  _linksByRemoteHandle s !! h = Some l ->
  Forall (fun f => TransferFrame.handle f = h) tfs ->
  let s' := processFrames defaultHandleMax unhandled s (transfer_frames r tfs) in
  exists s'' opts,
    addWindow s' (Z.of_nat (length tfs)) = Return tt s'' /\
    SessionParams.incomingWindow <$> _sessionParams s''
    = Some (SessionParams.incomingWindow p) /\
    trace s'' = trace s' ++ [sendFrame (channel s) (OutFlow opts)] /\
    FlowOptions.incomingWindow opts = SessionParams.incomingWindow p /\
    FlowOptions.nextOutgoingId opts = SessionParams.nextOutgoingId p /\
    FlowOptions.outgoingWindow opts = SessionParams.outgoingWindow p /\
    FlowOptions.handle opts = null /\
    FlowOptions.drain opts = false.
Proof.
  intros Hrc Hp Hh Hl Hall s'.
  destruct (routable_transfers tfs s p r h l Hrc Hp Hh Hl Hall)
    as ((p' & Hp' & Hw' & Hn' & Ho') & Hc' & _).
  fold s' in Hp', Hc'. unfold addWindow. rewrite Hp'. cbn zeta.
  eexists. eexists. split; [reflexivity|]. cbn. rewrite Hc', Hw', Hn', Ho'.
  repeat split; try reflexivity.
  - f_equal. lia.
  - cbn. lia.
Qed.

(** X9. A transfer for a known link that carries a delivery id d sets
    nextIncomingId to d + 1, whatever it was; one that carries none
    (undefined or null) leaves nextIncomingId alone. *)
Theorem transfer_sets_nextIncomingId s p r (f : TransferFrame.t) l :
  remoteChannel s = Some r ->
  _sessionParams s = Some p ->
  TransferFrame.handle f <> null ->
  _linksByRemoteHandle s !! TransferFrame.handle f = Some l ->
  SessionParams.nextIncomingId
    <$> _sessionParams (state_of (_processFrame defaultHandleMax unhandled s
                                    (Frame.mk (Some r) (Transfer f))))
  = Some (match TransferFrame.deliveryId f with
          | val d => Some (d + 1)
          | undefined | null => SessionParams.nextIncomingId p
          end).
Proof.
  intros Hrc Hp Hh Hl.
  unfold _processFrame, begin_for_us, invalid_channel. cbn [Frame.body Frame.channel].
  rewrite Hrc. rewrite bool_decide_eq_true_2 by reflexivity. cbn [negb].
  destruct (TransferFrame.handle f) eqn:Hhf; try congruence;
    rewrite Hl; unfold _transferReceived; rewrite Hp; cbn zeta; cbn [bind state_of];
    destruct (TransferFrame.deliveryId f); reflexivity.
Qed.

(** ** Dispositions *)

(** X10. A Disposition frame of sender role is passed over in silence:
    the session is left exactly as it was and no notification is emitted.
    A receiver-role one that is not settled removes nothing from the
    in-flight table and still emits the notification, with settled
    false. *)
Theorem disposition_without_settlement s (frame : Frame.t Value) f :
  Frame.body frame = Disposition f ->
  invalid_channel s frame = false ->
  (DispositionFrame.role f = sender ->
   _processFrame defaultHandleMax unhandled s frame = Return tt s) /\
  (DispositionFrame.role f = receiver ->
   DispositionFrame.settled f = false ->
   _processFrame defaultHandleMax unhandled s frame
   = Return tt (log (emit (DispositionReceived (DispositionFrame.first f)
                             (or_else (DispositionFrame.last f) (DispositionFrame.first f))
                             false (DispositionFrame.state f))) s)).
Proof.
  intros Hbody Hch.
  assert (Hnb : begin_for_us s frame = None)
    by (apply begin_for_us_other; intros b; rewrite Hbody; discriminate).
  unfold _processFrame. rewrite Hnb, Hch, Hbody. split.
  - intros ->. reflexivity.
  - intros -> ->. reflexivity.
Qed.

(** X11. The range of a settled receiver-role disposition at its edges.
    A [last] that is undefined, null or 0 counts as missing ([frame.last
    || first]): exactly the id [first] is settled, also when first is
    larger than 0 and last is 0.  A [last] other than 0 that lies below
    [first] gives an empty range: nothing is removed. *)
Theorem disposition_range_edges s (frame : Frame.t Value) f :
  Frame.body frame = Disposition f ->
  invalid_channel s frame = false ->
  DispositionFrame.role f = receiver ->
  DispositionFrame.settled f = true ->
  let first := DispositionFrame.first f in
  let s' := state_of (_processFrame defaultHandleMax unhandled s frame) in
  (DispositionFrame.last f = undefined \/ DispositionFrame.last f = null \/
   DispositionFrame.last f = val 0 ->
   (forall k, _transfersInFlight s' !! k
              = if decide (k = first) then None else _transfersInFlight s !! k) /\
   trace s' = trace s ++ [emit (DispositionReceived first first true
                                  (DispositionFrame.state f))]) /\
  (forall last, DispositionFrame.last f = val last -> last <> 0 -> last < first ->
   _transfersInFlight s' = _transfersInFlight s).
Proof.
  intros Hbody Hch Hrole Hsettled first s'.
  assert (Hnb : begin_for_us s frame = None)
    by (apply begin_for_us_other; intros b; rewrite Hbody; discriminate).
  assert (Hrun : s' = log (emit (DispositionReceived first
                                   (or_else (DispositionFrame.last f) first) true
                                   (DispositionFrame.state f)))
                       (set_transfersInFlight
                          (settle_loop (_transfersInFlight s)
                             (Z.to_nat (or_else (DispositionFrame.last f) first - first + 1))
                             first) s)).
  { subst s'. unfold _processFrame. rewrite Hnb, Hch, Hbody, Hrole, Hsettled. reflexivity. }
  split.
  - intros Hlast.
    assert (Hor : or_else (DispositionFrame.last f) first = first)
      by (destruct Hlast as [-> | [-> | ->]]; reflexivity).
    rewrite Hrun, Hor. cbn. split; [|reflexivity].
    intros k. rewrite settle_loop_range.
    destruct (decide (first <= k <= first)); destruct (decide (k = first));
      try reflexivity; lia.
  - intros last Hlast Hnz Hlt.
    assert (Hor : or_else (DispositionFrame.last f) first = last).
    { rewrite Hlast. unfold or_else. destruct (Z.eqb_spec last 0); [contradiction|reflexivity]. }
    rewrite Hrun, Hor. cbn. apply map_eq. intros k. rewrite settle_loop_range.
    destruct (decide (first <= k <= last)); [lia | reflexivity].
Qed.

(** ** The peer's Begin *)

(** X12. The handleMax a session ends up with once the peer's Begin is
    taken in.  The frame's handleMax counts as [constants.defaultHandleMax]
    when it is undefined, null or 0; the local handleMax counts for
    nothing when it is undefined or 0 (it is falsy), and the peer's value
    is then taken as it is; otherwise the result is the smaller of the
    two.  So the result is never above a non-zero handleMax of the frame
    nor above a non-zero handleMax of the local policy. *)
Theorem negotiated_handleMax s p ch cho (bf : BeginFrame.t) :
  channel s = Some ch ->
  _sessionParams s = Some p ->
  BeginFrame.remoteChannel bf = Some ch ->
  let theirs_missing :=
    BeginFrame.handleMax bf = undefined \/ BeginFrame.handleMax bf = null \/
    BeginFrame.handleMax bf = val 0 in
  let ours_missing :=
    SessionParams.handleMax p = None \/ SessionParams.handleMax p = Some 0 in
  exists s' p' hmax,
    _processFrame defaultHandleMax unhandled s (Frame.mk cho (Begin bf)) = Return tt s' /\
    _sessionParams s' = Some p' /\
    SessionParams.handleMax p' = Some hmax /\
    (theirs_missing -> ours_missing -> hmax = defaultHandleMax) /\
    (theirs_missing -> forall ours, SessionParams.handleMax p = Some ours -> ours <> 0 ->
     hmax = Z.min ours defaultHandleMax) /\
    (forall theirs, BeginFrame.handleMax bf = val theirs -> theirs <> 0 -> ours_missing ->
     hmax = theirs) /\
    (forall theirs ours, BeginFrame.handleMax bf = val theirs -> theirs <> 0 ->
     SessionParams.handleMax p = Some ours -> ours <> 0 ->
     hmax = Z.min ours theirs) /\
    (forall theirs, BeginFrame.handleMax bf = val theirs -> theirs <> 0 -> hmax <= theirs) /\
    (forall ours, SessionParams.handleMax p = Some ours -> ours <> 0 -> hmax <= ours).
Proof.
  intros Hch Hp Hrc theirs_missing ours_missing.
  unfold _processFrame, begin_for_us. cbn [Frame.body Frame.channel].
  rewrite Hrc, Hch. rewrite decide_True by reflexivity.
  unfold _beginReceived. cbn. rewrite Hp.
  eexists. eexists. eexists. split; [reflexivity|]. cbn.
  split; [reflexivity|]. split; [reflexivity|].
  subst theirs_missing ours_missing. unfold or_else.
  split; [|split; [|split; [|split; [|split]]]].
  - intros [-> | [-> | ->]] [-> | ->]; reflexivity.
  - intros Hm ours -> Hnz. destruct (Z.eqb_spec ours 0); [contradiction|].
    destruct Hm as [-> | [-> | ->]]; reflexivity.
  - intros theirs -> Hnz. destruct (Z.eqb_spec theirs 0); [contradiction|].
    intros [-> | ->]; reflexivity.
  - intros theirs ours -> Hnz -> Hnz'.
    destruct (Z.eqb_spec theirs 0); [contradiction|].
    destruct (Z.eqb_spec ours 0); [contradiction|]. reflexivity.
  - intros theirs -> Hnz. destruct (Z.eqb_spec theirs 0); [contradiction|].
    destruct (SessionParams.handleMax p) as [ours|]; [|lia].
    destruct (Z.eqb ours 0); lia.
  - intros ours -> Hnz. destruct (Z.eqb_spec ours 0); [contradiction | lia].
Qed.

(** ** Links *)

Lemma attachLink_Return_free s (linkPolicy : LinkPolicy.t) link s' :
  attachLink s linkPolicy = Return link s' ->
  _allocatedHandles s !! Link.handle link = None /\
  _allocatedHandles s' = <[Link.handle link := Attached link]> (_allocatedHandles s) /\
  _linksByName s' = <[Link.name link := link]> (_linksByName s) /\
  Link.name link = resolve_name (LinkPolicy.name linkPolicy) /\
  remoteChannel s' = remoteChannel s.
Proof.
  intros Hattach.
  destruct (_sessionParams s) as [p|] eqn:Hp;
    [|unfold attachLink, _nextHandle in Hattach; rewrite Hp in Hattach; discriminate].
  destruct (SessionParams.handleMax p) as [hmax|] eqn:Hmax;
    [|unfold attachLink, _nextHandle in Hattach; rewrite Hp, Hmax in Hattach; discriminate].
  destruct (attachLink_Return_inv s p hmax linkPolicy link s' Hp Hmax Hattach)
    as [Hloop Hhandles].
  apply _nextHandle_loop_Some in Hloop. destruct Hloop as (_ & Hfree & _).
  split; [exact Hfree|]. split; [exact Hhandles|].
  unfold attachLink, _nextHandle in Hattach. rewrite Hp, Hmax in Hattach.
  destruct (_nextHandle_loop _ _ _) as [hid|]; [|discriminate].
  cbn [bind] in Hattach.
  destruct (LinkPolicy.role linkPolicy); injection Hattach as <- <-; cbn; auto.
Qed.

Lemma attachLink_handles_grow s (linkPolicy : LinkPolicy.t) h :
  is_Some (_allocatedHandles s !! h) ->
  is_Some (_allocatedHandles (state_of (attachLink s linkPolicy)) !! h).
Proof.
  intros Hh. destruct (attachLink s linkPolicy) as [link s'|e s'] eqn:Hattach.
  - destruct (attachLink_Return_free s linkPolicy link s' Hattach) as (_ & Hgrown & _).
    cbn [state_of]. rewrite Hgrown, lookup_insert_is_Some. destruct (decide (Link.handle link = h)); auto.
  - cbn [state_of]. assert (s' = s); [|subst; exact Hh].
    unfold attachLink, _nextHandle in Hattach.
    destruct (_sessionParams s) as [p|]; [|injection Hattach; auto].
    destruct (SessionParams.handleMax p); [|injection Hattach; auto].
    destruct (_nextHandle_loop _ _ _); [|injection Hattach; auto].
    cbn in Hattach. discriminate.
Qed.

Lemma attachLinks_Return_free (policies : list LinkPolicy.t) : forall s (k : nat) link s',
  attachLinks s policies !! k = Some (Return link s') ->
  _allocatedHandles s !! Link.handle link = None.
Proof.
  induction policies as [|lp policies IH]; intros s k link s' Hk; [discriminate|].
  destruct k as [|k]; cbn in Hk.
  - injection Hk as Hk. apply (attachLink_Return_free s lp link s' Hk).
  - specialize (IH _ _ _ _ Hk).
    destruct (_allocatedHandles s !! Link.handle link) as [slot|] eqn:Hs; [|reflexivity].
    assert (Hgrow := attachLink_handles_grow s lp (Link.handle link) ltac:(rewrite Hs; eauto)).
    rewrite IH in Hgrow. destruct Hgrow as [x Hx]. discriminate.
Qed.

(** X13. Nothing in the session gives a handle back between attaches, so
    two calls of [attachLink] of one sequence that both return never
    return the same handle. *)
Theorem attached_handles_distinct (policies : list LinkPolicy.t) : forall s (i j : nat)
    li si lj sj,
  (i < j)%nat ->
  attachLinks s policies !! i = Some (Return li si) ->
  attachLinks s policies !! j = Some (Return lj sj) ->
  Link.handle li <> Link.handle lj.
Proof.
  induction policies as [|lp policies IH]; intros s i j li si lj sj Hij Hi Hj; [discriminate|].
  destruct j as [|j]; [lia|]. cbn in Hj.
  destruct i as [|i]; cbn in Hi.
  - injection Hi as Hi.
    destruct (attachLink_Return_free s lp li si Hi) as (_ & Hhandles & _).
    rewrite Hi in Hj. cbn [state_of] in Hj.
    apply attachLinks_Return_free in Hj. rewrite Hhandles in Hj.
    intros Heq. rewrite Heq, lookup_insert_eq in Hj. discriminate.
  - apply (IH (state_of (attachLink s lp)) i j li si lj sj); [lia | exact Hi | exact Hj].
Qed.

(** X14. Attach, then the peer's Attach.  Once [attachLink] has returned
    a link, an Attach frame on the remote channel that names it is handed
    to that very link, also when another link was registered under the
    same name before (the new link has replaced it in [_linksByName]).
    A link attached under the empty name is out of reach: an Attach frame
    with the empty name is answered with a warning. *)
Theorem attach_then_Attach_frame s (linkPolicy : LinkPolicy.t) link s'
    (frame : Frame.t Value) f :
  attachLink s linkPolicy = Return link s' ->
  Frame.body frame = Attach f ->
  invalid_channel s frame = false ->
  AttachFrame.name f = Some (Link.name link) ->
  _processFrame defaultHandleMax unhandled s' frame
  = Return tt (log (if decide (Link.name link = EmptyString)
                    then console_warn (UnknownAttach (Some EmptyString))
                    else link_call link (link_attachReceived f)) s').
Proof.
  intros Hattach Hbody Hch Hname.
  destruct (attachLink_Return_free s linkPolicy link s' Hattach)
    as (_ & _ & Hnames & _ & Hrc).
  assert (Hnb : begin_for_us s' frame = None)
    by (apply begin_for_us_other; intros b; rewrite Hbody; discriminate).
  assert (Hch' : invalid_channel s' frame = false)
    by (unfold invalid_channel in *; rewrite Hrc; exact Hch).
  unfold _processFrame. rewrite Hnb, Hch', Hbody, Hname.
  destruct (decide (Link.name link = EmptyString)) as [He|He].
  - rewrite He. reflexivity.
  - destruct (Link.name link) as [|c n] eqn:Hn; [contradiction|].
    cbn. rewrite Hnames, lookup_insert_eq. reflexivity.
Qed.

(** ** Ending *)

(** X15. [end()] is not guarded against a second call: on a MAPPED
    session each of two calls in a row sends an End frame, the second one
    firing sendEnd in END_SENT, where the table defines no such event. *)
Theorem end_twice_sends_two_End_frames s r :
  sessionSM s = MAPPED ->
  remoteChannel s = Some r ->
  exists rest,
    trace (end_ unhandled (end_ unhandled s))
    = trace s ++ [sendFrame (channel s) OutEnd; sendFrame (channel s) OutEnd] ++ rest /\
    sessionSM (end_ unhandled (end_ unhandled s)) = unhandled END_SENT sendEnd.
Proof.
  intros Hsm Hrc.
  destruct (end__with_remoteChannel unhandled s r Hrc) as (Hsm1 & Htr1 & Hkeep1).
  rewrite Hsm in Hsm1, Htr1, Hkeep1. cbn in Hsm1, Htr1, Hkeep1.
  destruct (Hkeep1 ltac:(discriminate)) as [Hch1 Hrc1].
  destruct (end__with_remoteChannel unhandled (end_ unhandled s) r Hrc1)
    as (Hsm2 & Htr2 & _).
  rewrite Hsm1 in Hsm2, Htr2. cbn in Hsm2, Htr2.
  eexists. split; [|exact Hsm2].
  rewrite Htr2, Htr1, Hch1, <- app_assoc. reflexivity.
Qed.

(** X16. A session without remote channel (not yet mapped, or unmapped
    again) is deaf to everything but a Begin frame addressed to its
    channel: any run of other frames, whatever their kind and channel,
    leaves it exactly as it was, trace included. *)
Theorem unmapped_session_drops_frames (frames : list (Frame.t Value)) s :
  remoteChannel s = None ->
  Forall (fun frame => begin_for_us s frame = None) frames ->
  processFrames defaultHandleMax unhandled s frames = s.
Proof.
  intros Hrc Hall. induction Hall as [|frame frames Hnb _ IH]; [reflexivity|].
  unfold processFrames. cbn [fold_left].
  assert (Hdrop : _processFrame defaultHandleMax unhandled s frame = Return tt s).
  { unfold _processFrame. rewrite Hnb.
    assert (Hinv : invalid_channel s frame = true).
    { unfold invalid_channel. destruct (Frame.channel frame); [|reflexivity].
      rewrite Hrc. reflexivity. }
    rewrite Hinv. reflexivity. }
  rewrite Hdrop. exact IH.
Qed.

(** ** What no call and no frame undoes *)

Ltac frame_cases :=
  unfold _processFrame, _beginReceived, _flowReceived, _transferReceived,
    _endReceived, _unmap, _sendEnd, bind;
  repeat case_match; simplify_eq; cbn [state_of]; rewrite ?broadcast_eq.

Lemma _processFrame_allocatedHandles s (frame : Frame.t Value) :
  _allocatedHandles (state_of (_processFrame defaultHandleMax unhandled s frame))
  = _allocatedHandles s.
Proof. frame_cases; reflexivity. Qed.

Lemma _processFrame_inFlight s (frame : Frame.t Value) :
  (forall f, Frame.body frame <> Disposition f) ->
  _transfersInFlight (state_of (_processFrame defaultHandleMax unhandled s frame))
  = _transfersInFlight s.
Proof.
  intros Hnd. frame_cases; try reflexivity.
  all: exfalso; eapply Hnd; reflexivity.
Qed.

Lemma settle_loop_subset (inFlight : gmap Z (InFlight Value)) n first k :
  is_Some (settle_loop inFlight n first !! k) -> is_Some (inFlight !! k).
Proof.
  rewrite settle_loop_lookup. destruct (decide _); [intros [x Hx]; discriminate | auto].
Qed.

Lemma _processFrame_inFlight_subset s (frame : Frame.t Value) k :
  is_Some (_transfersInFlight
             (state_of (_processFrame defaultHandleMax unhandled s frame)) !! k) ->
  is_Some (_transfersInFlight s !! k).
Proof.
  frame_cases; cbn; auto. apply settle_loop_subset.
Qed.

Lemma _processFrame_nextOutgoingId s (frame : Frame.t Value) p' :
  _sessionParams (state_of (_processFrame defaultHandleMax unhandled s frame)) = Some p' ->
  exists p, _sessionParams s = Some p /\
            SessionParams.nextOutgoingId p' = SessionParams.nextOutgoingId p.
Proof.
  frame_cases; cbn; intros Hp';
    first [ congruence
          | exists p'; split; [exact Hp' | reflexivity]
          | injection Hp' as <-; eexists; split; reflexivity
          | injection Hp' as <-; eexists; split; [eassumption | reflexivity] ].
Qed.

Lemma _processFrame_sessionSM s (frame : Frame.t Value) :
  exists events,
    sessionSM (state_of (_processFrame defaultHandleMax unhandled s frame))
    = fold_left (transition unhandled) events (sessionSM s).
Proof.
  frame_cases; cbn;
    first [ by exists []
          | by exists [beginReceived]
          | by exists [endReceived]
          | by exists [endReceived; sendEnd] ].
Qed.

Ltac call_cases :=
  unfold step, begin, attachLink, _nextHandle, detachLink, sendMessage, addWindow, end_,
    _linkAttached, _linkDetached, _unmap, _sendEnd, bind;
  repeat case_match; simplify_eq; cbn [state_of].

Lemma step_sessionSM s (op : Op Value) :
  exists events,
    sessionSM (step defaultHandleMax unhandled s op)
    = fold_left (transition unhandled) events (sessionSM s).
Proof.
  destruct op as [pol ch|lp|l|l m o now|n| |l|l|frame];
    try apply _processFrame_sessionSM;
    call_cases; cbn;
    first [ by exists [] | by exists [sendBegin] | by exists [sendEnd] ].
Qed.

Lemma step_allocatedHandles s (op : Op Value) h :
  is_Some (_allocatedHandles s !! h) ->
  is_Some (_allocatedHandles (step defaultHandleMax unhandled s op) !! h).
Proof.
  intros Hh.
  destruct op as [pol ch|lp|l|l m o now|n| |l|l|frame].
  2: { apply attachLink_handles_grow. exact Hh. }
  8: { cbn [step]. rewrite _processFrame_allocatedHandles. exact Hh. }
  all: call_cases; exact Hh.
Qed.

Lemma step_inFlight s (op : Op Value) k :
  is_disposition op = false ->
  is_Some (_transfersInFlight s !! k) ->
  is_Some (_transfersInFlight (step defaultHandleMax unhandled s op) !! k).
Proof.
  intros Hop Hk.
  destruct op as [pol ch|lp|l|l m o now|n| |l|l|frame].
  9: { cbn [step]. rewrite _processFrame_inFlight; [exact Hk|].
       intros f Hf. cbn in Hop. rewrite Hf in Hop. discriminate. }
  all: call_cases; cbn; try exact Hk.
  all: rewrite lookup_insert_is_Some; destruct (decide (SessionParams.nextOutgoingId t = k)); auto.
Qed.

Lemma step_tracked s (op : Op Value) p' :
  is_begin op = false ->
  _sessionParams (step defaultHandleMax unhandled s op) = Some p' ->
  exists p,
    _sessionParams s = Some p /\
    SessionParams.nextOutgoingId p <= SessionParams.nextOutgoingId p' /\
    (forall k, is_Some (_transfersInFlight (step defaultHandleMax unhandled s op) !! k) ->
               is_Some (_transfersInFlight s !! k) \/ k < SessionParams.nextOutgoingId p').
Proof.
  intros Hop Hp'.
  destruct op as [pol ch|lp|l|l m o now|n| |l|l|frame]; [discriminate|..].
  8: { cbn [step] in *.
       destruct (_processFrame_nextOutgoingId s frame p' Hp') as (p & Hp & Hn).
       exists p. split; [exact Hp|]. split; [lia|].
       intros k Hk. left. exact (_processFrame_inFlight_subset s frame k Hk). }
  all: revert Hp'; call_cases; cbn; intros Hp'; simplify_eq;
    try (eexists; split; [eassumption || reflexivity|]; cbn; split; [lia|]; auto; fail).
  all: eexists; (split; [eassumption || reflexivity|]); cbn; (split; [lia|]);
    intros k; rewrite lookup_insert_is_Some;
    intros [<-|[_ Hk]]; [right; lia | left; exact Hk].
Qed.

(** X17. The session never gets into DISCARDING: the table has no
    transition into it, so whatever is called and whatever frames arrive,
    a state machine that is not in DISCARDING stays out of it (given that
    stately.js does not move the machine there on an event the state does
    not define). *)
Theorem never_discarding (ops : list (Op Value)) : forall s,
  (forall st ev, st <> DISCARDING -> unhandled st ev <> DISCARDING) ->
  sessionSM s <> DISCARDING ->
  sessionSM (run defaultHandleMax unhandled s ops) <> DISCARDING.
Proof.
  intros s Hun.
  assert (Htrans : forall st ev, st <> DISCARDING -> transition unhandled st ev <> DISCARDING).
  { intros st ev Hst. unfold transition.
    destruct (stateMachine st ev) as [st'|] eqn:Ht; [|apply Hun; exact Hst].
    destruct st, ev; cbn in Ht; congruence. }
  assert (Hfold : forall events st, st <> DISCARDING ->
            fold_left (transition unhandled) events st <> DISCARDING).
  { induction events as [|ev events IH]; intros st Hst; [exact Hst|].
    cbn. apply IH, Htrans, Hst. }
  revert s. induction ops as [|op ops IH]; intros s Hs; [exact Hs|].
  cbn. apply IH. destruct (step_sessionSM s op) as [events ->]. apply Hfold, Hs.
Qed.

(** X18. An allocated handle stays allocated: no call and no frame takes
    an entry out of [_allocatedHandles], not [detachLink], not a Detach
    frame, not the end of the session. *)
Theorem handles_never_released (ops : list (Op Value)) : forall s h,
  is_Some (_allocatedHandles s !! h) ->
  is_Some (_allocatedHandles (run defaultHandleMax unhandled s ops) !! h).
Proof.
  induction ops as [|op ops IH]; intros s h Hh; [exact Hh|].
  cbn. apply IH, step_allocatedHandles, Hh.
Qed.

(** X19. A delivery stays in flight until a Disposition frame settles it:
    nothing else removes an entry of [_transfersInFlight], neither the End
    exchange and its unmap nor a new [begin]. *)
Theorem inFlight_until_disposition (ops : list (Op Value)) : forall s k,
  Forall (fun op => is_disposition op = false) ops ->
  is_Some (_transfersInFlight s !! k) ->
  is_Some (_transfersInFlight (run defaultHandleMax unhandled s ops) !! k).
Proof.
  induction ops as [|op ops IH]; intros s k Hall Hk; [exact Hk|].
  inversion Hall as [|? ? Hop Hrest]; subst.
  cbn. apply IH; [exact Hrest|]. apply step_inFlight; assumption.
Qed.

(** X20. As long as [begin] is not called again, nextOutgoingId never
    goes down and every delivery id in flight is below it: the ids in the
    table are ids the session has given out. *)
Theorem inFlight_ids_below_nextOutgoingId (ops : list (Op Value)) : forall s p p',
  Forall (fun op => is_begin op = false) ops ->
  _sessionParams s = Some p ->
  (forall k, is_Some (_transfersInFlight s !! k) -> k < SessionParams.nextOutgoingId p) ->
  _sessionParams (run defaultHandleMax unhandled s ops) = Some p' ->
  SessionParams.nextOutgoingId p <= SessionParams.nextOutgoingId p' /\
  (forall k, is_Some (_transfersInFlight (run defaultHandleMax unhandled s ops) !! k) ->
             k < SessionParams.nextOutgoingId p').
Proof.
  induction ops as [|op ops IH]; intros s p p' Hall Hp Hinv Hp'.
  - cbn in *. rewrite Hp in Hp'. injection Hp' as <-. split; [lia | exact Hinv].
  - inversion Hall as [|? ? Hop Hrest]; subst.
    change (run defaultHandleMax unhandled s (op :: ops))
      with (run defaultHandleMax unhandled (step defaultHandleMax unhandled s op) ops) in *.
    destruct (_sessionParams (step defaultHandleMax unhandled s op)) as [p1|] eqn:Hp1.
    + destruct (step_tracked s op p1 Hop Hp1) as (p0 & Hp0 & Hle & Hkeys).
      rewrite Hp in Hp0. injection Hp0 as <-.
      assert (Hinv1 : forall k,
                is_Some (_transfersInFlight (step defaultHandleMax unhandled s op) !! k) ->
                k < SessionParams.nextOutgoingId p1).
      { intros k Hk. destruct (Hkeys k Hk) as [Hold|Hnew]; [|exact Hnew].
        specialize (Hinv k Hold). lia. }
      destruct (IH _ p1 p' Hrest Hp1 Hinv1 Hp') as [Hle' Hinv'].
      split; [lia | exact Hinv'].
    + exfalso. clear IH Hinv.
      assert (Hnone : forall ops' s',
                Forall (fun op => is_begin op = false) ops' ->
                _sessionParams s' = None ->
                _sessionParams (run defaultHandleMax unhandled s' ops') = None).
      { induction ops' as [|op' ops' IH']; intros s' Hall' Hs'; [exact Hs'|].
        inversion Hall' as [|? ? Hop' Hrest']; subst. cbn. apply IH'; [exact Hrest'|].
        destruct (_sessionParams (step defaultHandleMax unhandled s' op')) as [q|] eqn:Hq;
          [|reflexivity].
        destruct (step_tracked s' op' q Hop' Hq) as (q0 & Hq0 & _). congruence. }
      rewrite (Hnone ops _ Hrest Hp1) in Hp'. discriminate.
Qed.

(** ** Attach frames for names the session does not know *)


End FurtherProperties.

(** * The properties on the sample sessions *)

Module SampleRuns.
Import Samples.

(** The session of the default policy from [begin] to a settled
    delivery: one sender link, one message, its disposition. *)
Example scenario_send_then_settle :
  let s1 := begin stately new_Session checked 1 in
  let s2 := state_of (_processFrame defaultHandleMax stately s1
                        (Frame.mk (Some 7) (Begin beginFrame))) in
  let s3 := state_of (attachLink s2 (linkPolicy "out")) in
  let s4 := state_of (sendMessage s3 outLink "m" "{}" 1000) in
  let s5 := state_of (_processFrame defaultHandleMax stately s4
                        (Frame.mk (Some 7)
                           (Disposition (DispositionFrame.mk receiver 0 (val 0) true
                                           "accepted"%string)))) in
  sessionSM s2 = MAPPED /\
  attachLink s2 (linkPolicy "out") = Return outLink s3 /\
  SessionParams.outgoingWindow <$> _sessionParams s4 = Some 9 /\
  _transfersInFlight s4 = {[0 := mkInFlight "m"%string "{}"%string 1000]} /\
  _transfersInFlight s5 = ∅ /\
  last (trace s5) = Some (emit (DispositionReceived 0 0 true "accepted"%string)).
Proof. vm_compute. repeat split; reflexivity. Qed.

(** A send before the peer's Begin: remoteIncomingWindow holds no number
    yet, the comparison with 0 is false and the send goes through. *)
Example send_before_mapped :
  let s := state_of (sendMessage begun outLink "m" "{}" 1000) in
  SessionParams.remoteIncomingWindow <$> _sessionParams s = Some None /\
  SessionParams.outgoingWindow <$> _sessionParams s = Some 9 /\
  is_Some (_transfersInFlight s !! 0).
Proof. vm_compute. repeat split; eauto. Qed.

(** Three sends from nextOutgoingId = 0, then a Flow frame with
    nextIncomingId = 1 and incomingWindow = 5. *)
Lemma C1_witness :
  SessionParams.remoteIncomingWindow
    <$> _sessionParams
          (state_of (_flowReceived (sendMessages session [send "a"; send "b"; send "c"])
                       (flowFrame null)))
  = Some (Some 3).
Proof.
  exact (proj2 (C1_flowReceived_recompute session params 0 (flowFrame null) eq_refl eq_refl)
           (send "a") (send "b") (send "c") eq_refl eq_refl).
Defined.



(** A send with no credit left and flow control enabled. *)
Lemma C3_witness :
  sendMessage (session_with checked exhausted) outLink "m" "{}" 1000
  = Throw OverCapacityError
      (set_sessionParams
         (Some (SessionParams.mk 4 10 6 (Some 0) (Some (-1)) (Some 10) (Some 2)))
         (session_with checked exhausted)).
Proof.
  exact (C3_sendMessage_counters (session_with checked exhausted) exhausted 0 checked
           outLink "m"%string "{}"%string 1000 eq_refl eq_refl eq_refl).
Defined.

(** The whole exchange on a fresh session: begin on channel 1, the peer's
    Begin on channel 7, [end()], the peer's End, then two more End
    frames. *)
Lemma C4_witness :
  let s2 := state_of (_processFrame defaultHandleMax stately (begin stately new_Session checked 1)
                        (Frame.mk (Some 7) (Begin beginFrame))) in
  let s4 := state_of (_processFrame defaultHandleMax stately (end_ stately s2) endFrame) in
  sessionSM s4 = UNMAPPED /\
  cleanups (trace (processFrames defaultHandleMax stately s4 [endFrame; endFrame])) = 1%nat.
Proof.
  assert (Hmore : Forall (fun frame : Frame.t string => exists f, Frame.body frame = End_ f)
                    [endFrame; endFrame])
    by (repeat constructor; eexists; reflexivity).
  destruct (C4_lifecycle defaultHandleMax stately new_Session checked 1 7 beginFrame
              (EndFrame.mk None) [endFrame; endFrame] session endFrame (EndFrame.mk None)
              eq_refl eq_refl Hmore eq_refl eq_refl)
    as (_ & _ & [Hsm _] & _ & (_ & _ & Hcount & _) & _).
  split; [exact Hsm | exact Hcount].
Defined.

(** Settling 10..12 with only 11 in flight, twice. *)
Lemma C5_witness :
  let frame := Frame.mk (Some 7) (Disposition settle_10_12) in
  exists s1 s2,
    _processFrame defaultHandleMax stately busy frame = Return tt s1 /\
    _transfersInFlight s1 !! 11 = None /\
    _processFrame defaultHandleMax stately s1 frame = Return tt s2 /\
    _transfersInFlight s2 = _transfersInFlight s1.
Proof.
  destruct (C5_settled_disposition defaultHandleMax stately busy
              (Frame.mk (Some 7) (Disposition settle_10_12)) settle_10_12
              eq_refl eq_refl eq_refl eq_refl)
    as (s1 & s2 & Hrun & Hlookup & _ & Hagain & Hsame & _).
  exists s1, s2. repeat split; try assumption.
  rewrite Hlookup. reflexivity.
Defined.

(** handleMax = 2: the fourth attach in a row finds no handle. *)
Lemma C6_witness :
  exists s', attachLinks session [linkPolicy "a"; linkPolicy "b"; linkPolicy "c"; linkPolicy "d"]
             !! 3%nat
             = Some (Throw OverCapacityError s').
Proof.
  exact (proj2 (proj2 (C6_handle_allocation session params 2 eq_refl eq_refl))
           [linkPolicy "a"; linkPolicy "b"; linkPolicy "c"; linkPolicy "d"] 3%nat
           (linkPolicy "d") eq_refl eq_refl).
Defined.

(** The claim of C7 as the specification words it fails with flow
    control disabled: eleven sends with outgoingWindow 10 and a peer
    window of 100 leave outgoingWindow at -1; and with no send at all two
    windows at -2 are at -2, not at [max 0 (-2)]. *)
Lemma C7_counterexample :
  SessionPolicy.enableSessionFlowControl unchecked = false /\
  SessionParams.outgoingWindow
    <$> _sessionParams (sendMessages (session_with unchecked lopsided)
                          (replicate 11 (send "m")))
  = Some (-1) /\
  -1 < 0 /\
  SessionParams.outgoingWindow
    <$> _sessionParams (sendMessages (session_with unchecked overdrawn) [])
  = Some (-2) /\
  SessionParams.remoteIncomingWindow
    <$> _sessionParams (sendMessages (session_with unchecked overdrawn) [])
  = Some (Some (-2)) /\
  -2 <> Z.max 0 (-2 - 0).
Proof.
  vm_compute. repeat split; try reflexivity; discriminate.
Qed.

(** Twelve sends into windows of 10, flow control disabled. *)
Lemma C7_witness :
  exists p',
    _sessionParams (sendMessages (session_with unchecked params) (replicate 12 (send "m")))
    = Some p' /\
    SessionParams.remoteIncomingWindow p' = Some 0 /\
    SessionParams.outgoingWindow p' = 0.
Proof.
  assert (Hstart : 0 <= 10 \/ replicate 12 (send "m") <> []) by (left; lia).
  destruct (C7_unchecked_windows (session_with unchecked params) params unchecked 10 10
              (replicate 12 (send "m")) eq_refl eq_refl eq_refl eq_refl eq_refl Hstart)
    as (p' & Hp' & Hremote & Hout & _).
  exists p'. split; [exact Hp'|]. split; [exact Hremote | exact Hout].
Defined.

(** [end()] between [begin] and the peer's Begin. *)
Lemma C8_witness :
  sessionSM (end_ stately begun) = BEGIN_SENT /\
  trace (end_ stately begun)
  = trace begun ++ [console_warn (EndBeforeMapped (Some 1))] ++ cleanup 1 /\
  channel (end_ stately begun) = None.
Proof.
  exact (C8_end_before_mapped stately begun).
Defined.

(** The same send, seen from its failure. *)
Lemma C9_witness :
  let s := session_with checked exhausted in
  let s' := state_of (sendMessage s outLink "m" "{}" 1000) in
  _transfersInFlight s' = _transfersInFlight s /\ trace s' = trace s.
Proof.
  destruct (C9_failed_send_not_tracked (session_with checked exhausted) outLink
              "m"%string "{}"%string 1000
              (state_of (sendMessage (session_with checked exhausted) outLink
                           "m"%string "{}"%string 1000))
              eq_refl)
    as (Hflight & Htrace & _).
  split; [exact Hflight | exact Htrace].
Defined.


End SampleRuns.

(** * The further properties on the sample sessions *)

Module FurtherRuns.
Import Samples.

Lemma calls_before_begin_throw_witness :
  sendMessage new_Session outLink "m" "{}" 1000 = Throw TypeError new_Session /\
  attachLink (@new_Session string) (linkPolicy "a") = Throw TypeError new_Session /\
  addWindow (@new_Session string) 5 = Throw TypeError new_Session.
Proof.
  exact (calls_before_begin_throw new_Session outLink "m"%string "{}"%string 1000
           (linkPolicy "a") 5 eq_refl).
Defined.

(** Two sends without credit: both fail, both ids are gone. *)
Lemma sends_consume_ids_witness :
  exists p',
    _sessionParams (sendMessages (session_with checked exhausted) [send "a"; send "b"])
    = Some p' /\
    SessionParams.nextOutgoingId p' = 5.
Proof.
  exact (sends_consume_ids [send "a"; send "b"] (session_with checked exhausted) exhausted
           eq_refl).
Defined.

(** A window of 10: the eleventh send in a row is the first to fail. *)
Lemma checked_sends_capacity_witness :
  exists s',
    sendMessage (sendMessages session (take 10 (replicate 12 (send "m"))))
      outLink "m" "{}" 1000
    = Throw OverCapacityError s'.
Proof.
  exact (checked_sends_capacity (replicate 12 (send "m")) session params checked 10 10%nat
           outLink "m"%string "{}"%string 1000 eq_refl eq_refl eq_refl eq_refl eq_refl).
Defined.

Lemma send_then_settle_witness :
  let s1 := state_of (sendMessage busy outLink "m" "{}" 1000) in
  let frame := Frame.mk (Some 7)
                 (Disposition (DispositionFrame.mk receiver 0 (val 0) true "ok"%string)) in
  _transfersInFlight s1 !! 0 = Some (mkInFlight "m"%string "{}"%string 1000) /\
  exists s2,
    _processFrame defaultHandleMax stately s1 frame = Return tt s2 /\
    _transfersInFlight s2 = _transfersInFlight busy.
Proof.
  destruct (send_then_settle defaultHandleMax stately busy params outLink
              "m"%string "{}"%string 1000
              (state_of (sendMessage busy outLink "m"%string "{}"%string 1000))
              (Frame.mk (Some 7)
                 (Disposition (DispositionFrame.mk receiver 0 (val 0) true "ok"%string)))
              (DispositionFrame.mk receiver 0 (val 0) true "ok"%string)
              eq_refl eq_refl eq_refl eq_refl eq_refl eq_refl eq_refl
              (or_introl eq_refl))
    as (Hin & s2 & Hrun & _ & Hback).
  split; [exact Hin|]. exists s2. split; [exact Hrun|]. apply Hback. reflexivity.
Defined.

Lemma flow_without_nextIncomingId_since_begin_witness :
  SessionParams.remoteIncomingWindow
    <$> _sessionParams
          (state_of (_flowReceived
                       (sendMessages (begin stately new_Session checked 1)
                          [send "a"; send "b"])
                       (FlowFrame.mk undefined 5 0 10 null)))
  = Some (Some 3).
Proof.
  exact (flow_without_nextIncomingId_since_begin stately new_Session checked 1
           [send "a"; send "b"] (FlowFrame.mk undefined 5 0 10 null) (or_introl eq_refl)).
Defined.

Lemma duplicate_flow_frame_witness :
  let frame := Frame.mk (Some 7) (Flow (flowFrame null)) in
  _sessionParams (processFrames defaultHandleMax stately busy [frame; frame])
  = _sessionParams (processFrames defaultHandleMax stately busy [frame]).
Proof.
  exact (duplicate_flow_frame defaultHandleMax stately busy
           (Frame.mk (Some 7) (Flow (flowFrame null))) (flowFrame null) eq_refl eq_refl).
Defined.

(** Twelve transfers into a window of 10. *)
Lemma transfers_past_the_window_witness :
  SessionParams.incomingWindow
    <$> _sessionParams
          (processFrames defaultHandleMax stately busy
             (transfer_frames 7 (replicate 12 (TransferFrame.mk (val 5) null))))
  = Some (-2).
Proof.
  refine (proj1 (transfers_past_the_window defaultHandleMax stately
                   (replicate 12 (TransferFrame.mk (val 5) null)) busy params 7 (val 5)
                   inLink eq_refl eq_refl _ eq_refl _)).
  - discriminate.
  - apply Forall_replicate. reflexivity.
Defined.

Lemma addWindow_restores_window_witness :
  let s' := processFrames defaultHandleMax stately busy
              (transfer_frames 7 (replicate 12 (TransferFrame.mk (val 5) null))) in
  exists s'' opts,
    addWindow s' 12 = Return tt s'' /\
    SessionParams.incomingWindow <$> _sessionParams s'' = Some 10 /\
    trace s'' = trace s' ++ [sendFrame (Some 1) (OutFlow opts)] /\
    FlowOptions.incomingWindow opts = 10.
Proof.
  assert (Hall : Forall (fun f => TransferFrame.handle f = val 5)
                   (replicate 12 (TransferFrame.mk (val 5) null)))
    by (apply Forall_replicate; reflexivity).
  destruct (addWindow_restores_window defaultHandleMax stately
              (replicate 12 (TransferFrame.mk (val 5) null)) busy params 7 (val 5)
              inLink eq_refl eq_refl ltac:(discriminate) eq_refl Hall)
    as (s'' & opts & Hrun & Hw & Htr & Hadv & _).
  exists s'', opts. repeat split; assumption.
Defined.

Lemma transfer_sets_nextIncomingId_witness :
  SessionParams.nextIncomingId
    <$> _sessionParams
          (state_of (_processFrame defaultHandleMax stately busy
                       (Frame.mk (Some 7) (Transfer (TransferFrame.mk (val 5) (val 41))))))
  = Some (Some 42).
Proof.
  refine (transfer_sets_nextIncomingId defaultHandleMax stately busy params 7
            (TransferFrame.mk (val 5) (val 41)) inLink eq_refl eq_refl _ eq_refl).
  discriminate.
Defined.

Lemma disposition_without_settlement_witness :
  let f := DispositionFrame.mk sender 10 (val 12) true "ok"%string in
  _processFrame defaultHandleMax stately busy (Frame.mk (Some 7) (Disposition f))
  = Return tt busy.
Proof.
  exact (proj1 (disposition_without_settlement defaultHandleMax stately busy
                  (Frame.mk (Some 7)
                     (Disposition (DispositionFrame.mk sender 10 (val 12) true "ok"%string)))
                  (DispositionFrame.mk sender 10 (val 12) true "ok"%string)
                  eq_refl eq_refl)
           eq_refl).
Defined.

(** first = 11, last = 0: delivery 11 is settled. *)
Lemma disposition_range_edges_witness :
  let f := DispositionFrame.mk receiver 11 (val 0) true "ok"%string in
  _transfersInFlight
    (state_of (_processFrame defaultHandleMax stately busy
                 (Frame.mk (Some 7) (Disposition f)))) !! 11
  = None.
Proof.
  destruct (disposition_range_edges defaultHandleMax stately busy
              (Frame.mk (Some 7)
                 (Disposition (DispositionFrame.mk receiver 11 (val 0) true "ok"%string)))
              (DispositionFrame.mk receiver 11 (val 0) true "ok"%string)
              eq_refl eq_refl eq_refl eq_refl)
    as [Hfalsy _].
  destruct (Hfalsy (or_intror (or_intror eq_refl))) as [Hlookup _].
  exact (Hlookup 11).
Defined.

(** No local handleMax, the peer offers 2. *)
Lemma negotiated_handleMax_witness :
  exists s' p',
    _processFrame defaultHandleMax stately begun (Frame.mk (Some 7) (Begin beginFrame))
    = Return tt s' /\
    _sessionParams s' = Some p' /\
    SessionParams.handleMax p' = Some 2.
Proof.
  destruct (negotiated_handleMax defaultHandleMax stately begun options 1 (Some 7) beginFrame
              eq_refl eq_refl eq_refl)
    as (s' & p' & hmax & Hrun & Hp' & Hmax & _ & _ & Htheirs & _).
  exists s', p'. split; [exact Hrun|]. split; [exact Hp'|].
  rewrite Hmax, (Htheirs 2 eq_refl ltac:(discriminate) (or_introl eq_refl)). reflexivity.
Defined.

Lemma attached_handles_distinct_witness :
  let si := state_of (attachLink session (linkPolicy "a")) in
  let sj := state_of (attachLink si (linkPolicy "b")) in
  exists li lj,
    attachLinks session [linkPolicy "a"; linkPolicy "b"] !! 0%nat = Some (Return li si) /\
    attachLinks session [linkPolicy "a"; linkPolicy "b"] !! 1%nat = Some (Return lj sj) /\
    Link.handle li <> Link.handle lj.
Proof.
  intros si sj. exists (Link.mk 0 "a" sender), (Link.mk 1 "b" sender).
  assert (Hi : attachLinks session [linkPolicy "a"; linkPolicy "b"] !! 0%nat
               = Some (Return (Link.mk 0 "a" sender) si))
    by (vm_compute; reflexivity).
  assert (Hj : attachLinks session [linkPolicy "a"; linkPolicy "b"] !! 1%nat
               = Some (Return (Link.mk 1 "b" sender) sj))
    by (vm_compute; reflexivity).
  split; [exact Hi|]. split; [exact Hj|].
  exact (attached_handles_distinct [linkPolicy "a"; linkPolicy "b"] session 0 1
           (Link.mk 0 "a" sender) si (Link.mk 1 "b" sender) sj (le_n 1) Hi Hj).
Defined.

Lemma attach_then_Attach_frame_witness :
  let s' := state_of (attachLink session (linkPolicy "out")) in
  let f := AttachFrame.mk (Some "out"%string) (val 5) in
  _processFrame defaultHandleMax stately s' (Frame.mk (Some 7) (Attach f))
  = Return tt (log (link_call outLink (link_attachReceived f)) s').
Proof.
  exact (attach_then_Attach_frame defaultHandleMax stately session (linkPolicy "out") outLink
           (state_of (attachLink session (linkPolicy "out")))
           (Frame.mk (Some 7) (Attach (AttachFrame.mk (Some "out"%string) (val 5))))
           (AttachFrame.mk (Some "out"%string) (val 5))
           eq_refl eq_refl eq_refl eq_refl).
Defined.

Lemma end_twice_sends_two_End_frames_witness :
  exists rest,
    trace (end_ stately (end_ stately session))
    = trace session ++ [sendFrame (Some 1) OutEnd; sendFrame (Some 1) OutEnd] ++ rest /\
    sessionSM (end_ stately (end_ stately session)) = END_SENT.
Proof.
  exact (end_twice_sends_two_End_frames stately session 7 eq_refl eq_refl).
Defined.

Lemma unmapped_session_drops_frames_witness :
  processFrames defaultHandleMax stately begun
    [endFrame; Frame.mk (Some 7) (Flow (flowFrame null));
     Frame.mk None (Transfer strayTransfer)]
  = begun.
Proof.
  apply (unmapped_session_drops_frames defaultHandleMax stately); [reflexivity|].
  repeat constructor.
Defined.

Lemma never_discarding_witness :
  let s := run defaultHandleMax stately new_Session
             [call_begin checked 1; frame_received (Frame.mk (Some 7) (Begin beginFrame));
              call_end; frame_received endFrame] in
  sessionSM s = UNMAPPED /\ sessionSM s <> DISCARDING.
Proof.
  split; [reflexivity|].
  apply (never_discarding defaultHandleMax stately); [|discriminate].
  intros st ev Hst. exact Hst.
Defined.

Lemma handles_never_released_witness :
  is_Some (_allocatedHandles
             (run defaultHandleMax stately busy
                [call_detachLink outLink;
                 frame_received (Frame.mk (Some 7) (Detach (DetachFrame.mk (val 5))));
                 call_end; frame_received endFrame]) !! 0).
Proof.
  apply (handles_never_released defaultHandleMax stately). cbn. eauto.
Defined.

Lemma inFlight_until_disposition_witness :
  is_Some (_transfersInFlight
             (run defaultHandleMax stately busy
                [call_end; frame_received endFrame; call_begin checked 2]) !! 11).
Proof.
  apply (inFlight_until_disposition defaultHandleMax stately).
  - repeat constructor.
  - cbn. eauto.
Defined.

Lemma inFlight_ids_below_nextOutgoingId_witness :
  let s := run defaultHandleMax stately session
             [call_sendMessage outLink "a"%string "{}"%string 1000;
              call_sendMessage outLink "b"%string "{}"%string 1001] in
  SessionParams.nextOutgoingId <$> _sessionParams s = Some 2 /\
  (forall k, is_Some (_transfersInFlight s !! k) -> k < 2).
Proof.
  split; [reflexivity|].
  refine (proj2 (inFlight_ids_below_nextOutgoingId defaultHandleMax stately
                   [call_sendMessage outLink "a"%string "{}"%string 1000;
                    call_sendMessage outLink "b"%string "{}"%string 1001]
                   session params
                   (SessionParams.mk 2 10 8 (Some 0) (Some 8) (Some 10) (Some 2))
                   _ eq_refl _ eq_refl)).
  - repeat constructor.
  - intros k [x Hx]. cbn in Hx. rewrite lookup_empty in Hx. discriminate.
Defined.


End FurtherRuns.
